(** * HemeWeb job model: lifecycle tasks, path resolver and log cache

    A shallow embedding of [src/jobs/models.py]: the [Job] record, its path
    and display helpers, the two background tasks [run_setup] and [run_job],
    and the log cache [get_output].

    Conventions.
    - Integer fields are [Z]; the status constants keep their numeric values.
    - A [FileField] is represented by its [.name], a [string].
    - The tasks run in a small state-and-exception monad [M].  The state
      holds the in-memory job instance (mutated in place by the Python code),
      the durable store (one row per job id), the cache backend, the log
      files, and a log of the observable events, each recorded together with
      the durable store as it stands when the event happens.
    - What the outside world decides (exit statuses, whether a file can be
      opened, the clock, the interpreter's recursion limit) is an [Env].
    - Django's [settings] are a [Settings] record. *)

From Stdlib Require Import ZArith NArith List String Ascii Lia Bool.
From stdpp Require Import base option gmap strings pretty.

Open Scope string_scope.
Open Scope Z_scope.

(** ** Python string and path primitives *)

Module Py.

(** [s.startswith(p)] *)
Definition startswith (s p : string) : bool := String.prefix p s.

(** [s.endswith("/")] *)
Fixpoint endswith_slash (s : string) : bool :=
  match s with
  | EmptyString => false
  | String c EmptyString => Ascii.eqb c "/"
  | String _ rest => endswith_slash rest
  end.

(** [s.replace(old, new)] for a non-empty [old]: scan left to right, and at
    each occurrence of [old] emit [new] and jump over the occurrence.
    [skip] counts the characters of the current occurrence still to be
    jumped over. *)
Fixpoint replace_from (old new : string) (skip : nat) (s : string) : string :=
  match s with
  | EmptyString => EmptyString
  | String c rest =>
      match skip with
      | S k => replace_from old new k rest
      | O =>
          if String.prefix old s
          then new +:+ replace_from old new (String.length old - 1) rest
          else String c (replace_from old new 0 rest)
      end
  end.

(** [s.replace("", new)]: [new] goes before every character and at the end. *)
Fixpoint interleave (new s : string) : string :=
  match s with
  | EmptyString => new
  | String c rest => new +:+ String c (interleave new rest)
  end.

(** [s.replace(old, new)]: every non-overlapping occurrence is replaced. *)
Definition replace (s old new : string) : string :=
  match old with
  | EmptyString => interleave new s
  | String _ _ => replace_from old new 0 s
  end.

(** [pat in s]: whether [pat] occurs somewhere in [s]. *)
Fixpoint occurs (pat s : string) : bool :=
  String.prefix pat s
  || match s with
     | EmptyString => false
     | String _ rest => occurs pat rest
     end.

(** One round of the loop of [posixpath.join]. *)
Definition join_step (path b : string) : string :=
  if startswith b "/" then b
  else if String.eqb path "" || endswith_slash path then path +:+ b
  else path +:+ "/" +:+ b.

(** [os.path.join(a, *p)] *)
Definition os_path_join (a : string) (p : list string) : string :=
  fold_left join_step p a.

(** ["{}".format(n)] for an integer. *)
Definition format_int (n : Z) : string := pretty n.

(** ["{}".format(x)] for a string or [None]. *)
Definition format_opt (x : option string) : string :=
  match x with
  | Some s => s
  | None => "None"
  end.

End Py.

(** ** UUIDs *)

Module UUID.

(** A [uuid.UUID] is its 128-bit integer ([UUID.int]); the constructor of
    the Python class refuses anything outside [0 <= int < 2^128]. *)
Definition t : Type := N.

Definition hex_digit (d : N) : ascii :=
  match d with
  | 0 => "0" | 1 => "1" | 2 => "2" | 3 => "3" | 4 => "4" | 5 => "5"
  | 6 => "6" | 7 => "7" | 8 => "8" | 9 => "9" | 10 => "a" | 11 => "b"
  | 12 => "c" | 13 => "d" | 14 => "e" | _ => "f"
  end%N%char.

(** The lowest [width] nibbles of [n], most significant first. *)
Fixpoint hex_pad (width : nat) (n : N) (acc : string) : string :=
  match width with
  | O => acc
  | S w => hex_pad w (N.shiftr n 4) (String (hex_digit (N.land n 15)) acc)
  end.

(** [UUID.hex]: ['%032x' % self.int] *)
Definition hex (u : t) : string := hex_pad 32 u "".

(** [str(uuid)]: the hex digits in groups of 8-4-4-4-12. *)
Definition str (u : t) : string :=
  let h := hex u in
  substring 0 8 h +:+ "-" +:+ substring 8 4 h +:+ "-" +:+ substring 12 4 h
    +:+ "-" +:+ substring 16 4 h +:+ "-" +:+ substring 20 12 h.

End UUID.

(** ** The job record *)

Record Job : Type := mkJob {
  id : UUID.t;
  configuration_file : string;
  input_file : string;
  stl_file : string;
  profile_file : string;
  output_file : string;
  created : Z;
  updated : Z;
  container_image : Z;
  instance_type : Z;
  instance_count : Z;
  status : Z
}.

Definition ADDED : Z := 1.
Definition QUEUED : Z := 2.
Definition RUNNING : Z := 10.
Definition DONE : Z := 3.
Definition PREPROCESSING : Z := 4.
Definition FAILED : Z := 0.

(** Attribute assignment on the instance, one setter per assigned field. *)
Definition set_configuration_file (v : string) (j : Job) : Job :=
  mkJob (id j) v (input_file j) (stl_file j) (profile_file j) (output_file j)
        (created j) (updated j) (container_image j) (instance_type j)
        (instance_count j) (status j).

Definition set_input_file (v : string) (j : Job) : Job :=
  mkJob (id j) (configuration_file j) v (stl_file j) (profile_file j)
        (output_file j) (created j) (updated j) (container_image j)
        (instance_type j) (instance_count j) (status j).

Definition set_stl_file (v : string) (j : Job) : Job :=
  mkJob (id j) (configuration_file j) (input_file j) v (profile_file j)
        (output_file j) (created j) (updated j) (container_image j)
        (instance_type j) (instance_count j) (status j).

Definition set_profile_file (v : string) (j : Job) : Job :=
  mkJob (id j) (configuration_file j) (input_file j) (stl_file j) v
        (output_file j) (created j) (updated j) (container_image j)
        (instance_type j) (instance_count j) (status j).

Definition set_output_file (v : string) (j : Job) : Job :=
  mkJob (id j) (configuration_file j) (input_file j) (stl_file j)
        (profile_file j) v (created j) (updated j) (container_image j)
        (instance_type j) (instance_count j) (status j).

Definition set_created (v : Z) (j : Job) : Job :=
  mkJob (id j) (configuration_file j) (input_file j) (stl_file j)
        (profile_file j) (output_file j) v (updated j) (container_image j)
        (instance_type j) (instance_count j) (status j).

Definition set_updated (v : Z) (j : Job) : Job :=
  mkJob (id j) (configuration_file j) (input_file j) (stl_file j)
        (profile_file j) (output_file j) (created j) v (container_image j)
        (instance_type j) (instance_count j) (status j).

Definition set_container_image (v : Z) (j : Job) : Job :=
  mkJob (id j) (configuration_file j) (input_file j) (stl_file j)
        (profile_file j) (output_file j) (created j) (updated j) v
        (instance_type j) (instance_count j) (status j).

Definition set_instance_type (v : Z) (j : Job) : Job :=
  mkJob (id j) (configuration_file j) (input_file j) (stl_file j)
        (profile_file j) (output_file j) (created j) (updated j)
        (container_image j) v (instance_count j) (status j).

Definition set_instance_count (v : Z) (j : Job) : Job :=
  mkJob (id j) (configuration_file j) (input_file j) (stl_file j)
        (profile_file j) (output_file j) (created j) (updated j)
        (container_image j) (instance_type j) v (status j).

Definition set_status (v : Z) (j : Job) : Job :=
  mkJob (id j) (configuration_file j) (input_file j) (stl_file j)
        (profile_file j) (output_file j) (created j) (updated j)
        (container_image j) (instance_type j) (instance_count j) v.

(** A status is terminal when it is [DONE] or [FAILED]. *)
Definition terminal (s : Z) : bool := (s =? DONE) || (s =? FAILED).

(** ** Exceptions *)

Inductive exn : Type :=
| RecursionError   (* maximum recursion depth exceeded *)
| IOError          (* open() failed *)
| DatabaseError.   (* UPDATE with update_fields touched no row *)

Inductive result (A : Type) : Type :=
| Ok (a : A)
| Raise (e : exn).
Arguments Ok {A} a.
Arguments Raise {A} e.

(** ** Settings *)

Record Settings : Type := mkSettings {
  JOB_FILES_UPLOAD_DIR : string;
  AWS_SECRET_ACCESS_KEY : string;
  AWS_ACCESS_KEY_ID : string;
  HEMEWEB_IMAGE_ID : string;
  HOST_IP : string
}.

(** ** Pure methods of [Job] *)

Section Methods.

Variable settings : Settings.

(** [job_directory_path(instance, filename)] *)
Definition job_directory_path (instance : Job) (filename : string) : string :=
  Py.os_path_join (JOB_FILES_UPLOAD_DIR settings)
                  [UUID.hex (id instance); "inputs"; filename].

Definition get_job_directory_path (self : Job) : string :=
  Py.os_path_join (JOB_FILES_UPLOAD_DIR settings) [UUID.hex (id self)].

Definition get_input_directory_path (self : Job) : string :=
  Py.os_path_join (get_job_directory_path self) ["inputs"].

Definition get_log_directory_path (self : Job) : string :=
  Py.os_path_join (get_job_directory_path self) ["logs"].

Definition get_result_directory_path (self : Job) : string :=
  Py.os_path_join (get_job_directory_path self) ["result"].

(** The method calls itself before anything else.  [depth] is the number of
    frames the interpreter still allows (its recursion limit); when none is
    left the call raises. *)
Fixpoint get_result_extracted_directory_path (depth : nat) (self : Job)
  : result string :=
  match depth with
  | O => Raise RecursionError
  | S d =>
      match get_result_extracted_directory_path d self with
      | Ok p => Ok (Py.os_path_join p ["Extracted/*"])
      | Raise e => Raise e
      end
  end.

Definition get_output_path (self : Job) : string :=
  Py.os_path_join (get_result_directory_path self)
                  [UUID.str (id self) +:+ ".vtu"].

Definition get_packaged_output_path (self : Job) : string :=
  Py.os_path_join (get_result_directory_path self)
                  [UUID.str (id self) +:+ ".tar.gz"].

Definition get_log_file_path (self : Job) (log_type : string) : string :=
  Py.os_path_join (get_log_directory_path self) [log_type].

(** [get_container_image_display()] as [format] prints it: the label of the
    choice, or the raw value when it is not one of [CONTAINER_CHOICES]. *)
Definition get_container_image_display (self : Job) : string :=
  if container_image self =? 1 then "seiryuz/hemelb-core:0.0.2"
  else if container_image self =? 2 then "seiryuz/hemelb-core:0.0.3"
  else Py.format_int (container_image self).

(** The chain of [if]/[elif] has no [else]: outside the four sizes the
    method falls off its end and returns [None]. *)
Definition get_instance_id (self : Job) : option string :=
  if instance_type self =? 2 then Some "c4.large"
  else if instance_type self =? 4 then Some "c4.xlarge"
  else if instance_type self =? 8 then Some "c4.2xlarge"
  else if instance_type self =? 16 then Some "c4.4xlarge"
  else None.

Definition get_core_count (self : Job) : Z :=
  instance_count self * instance_type self.

End Methods.

(** ** The world the tasks run in *)

(** The columns of the [jobs_job] table other than the primary key, as they
    may be listed in [save(update_fields=...)]. *)
Inductive field : Type :=
| Fconfiguration_file | Finput_file | Fstl_file | Fprofile_file
| Foutput_file | Fcreated | Fupdated | Fcontainer_image | Finstance_type
| Finstance_count | Fstatus.

Definition field_eqb (a b : field) : bool :=
  match a, b with
  | Fconfiguration_file, Fconfiguration_file | Finput_file, Finput_file
  | Fstl_file, Fstl_file | Fprofile_file, Fprofile_file
  | Foutput_file, Foutput_file | Fcreated, Fcreated | Fupdated, Fupdated
  | Fcontainer_image, Fcontainer_image | Finstance_type, Finstance_type
  | Finstance_count, Finstance_count | Fstatus, Fstatus => true
  | _, _ => false
  end.

(** What an observer of the worker could see happen. *)
Inductive event : Type :=
| EOpen (path mode : string)
| EClose (path : string)
| ERead (path : string)
| ECacheGet (key : string)
| ECacheSet (key value : string) (timeout : Z)
| ESave (update_fields : option (list field)) (written : Job)
| ECall (command : string) (stdout stderr : option string).

Record State : Type := mkState {
  inst : Job;                        (* the Python object the task mutates *)
  db : gmap N Job;                   (* durable store, a row per job id *)
  cache : gmap string (string * Z);  (* key -> (value, time of expiry) *)
  fs : gmap string string;           (* path -> file content *)
  log : list (event * gmap N Job)    (* events, each with the store then *)
}.

Record Env : Type := mkEnv {
  exit_status : string -> Z;  (* what [subprocess.call(command)] returns *)
  can_open : string -> bool;  (* whether [open(path, 'w')] succeeds *)
  now : Z;                    (* the clock, in seconds *)
  recursion_limit : nat       (* frames left to the interpreter *)
}.

Definition with_inst (j : Job) (st : State) : State :=
  mkState j (db st) (cache st) (fs st) (log st).

Definition with_db (d : gmap N Job) (st : State) : State :=
  mkState (inst st) d (cache st) (fs st) (log st).

Definition with_cache (c : gmap string (string * Z)) (st : State) : State :=
  mkState (inst st) (db st) c (fs st) (log st).

Definition with_fs (f : gmap string string) (st : State) : State :=
  mkState (inst st) (db st) (cache st) f (log st).

Definition record (e : event) (st : State) : State :=
  mkState (inst st) (db st) (cache st) (fs st) (log st ++ [(e, db st)]).

(** ** The task monad: state and exceptions *)

Definition M (A : Type) : Type := State -> result A * State.

Definition ret {A : Type} (a : A) : M A := fun st => (Ok a, st).

Definition bind {A B : Type} (m : M A) (k : A -> M B) : M B :=
  fun st =>
    match m st with
    | (Ok a, st') => k a st'
    | (Raise e, st') => (Raise e, st')
    end.

Definition lift {A : Type} (r : result A) : M A := fun st => (r, st).

Declare Scope task_scope.
Delimit Scope task_scope with task.
Notation "'do' x <- m ; k" := (bind m (fun x => k))
  (at level 10, x name, m at level 100, k at level 200) : task_scope.
Open Scope task_scope.

Definition emit (e : event) : M unit := fun st => (Ok tt, record e st).

Definition get_self : M Job := fun st => (Ok (inst st), st).

(** [job_instance.<field> = v] *)
Definition assign (f : Job -> Job) : M unit :=
  fun st => (Ok tt, with_inst (f (inst st)) st).

Section Tasks.

Variable settings : Settings.
Variable env : Env.

(** The value a column gets on save: the instance's attribute, except for
    the [auto_now] column, which gets the clock. *)
Definition write_field (self : Job) (f : field) (row : Job) : Job :=
  match f with
  | Fconfiguration_file => set_configuration_file (configuration_file self) row
  | Finput_file => set_input_file (input_file self) row
  | Fstl_file => set_stl_file (stl_file self) row
  | Fprofile_file => set_profile_file (profile_file self) row
  | Foutput_file => set_output_file (output_file self) row
  | Fcreated => set_created (created self) row
  | Fupdated => set_updated (now env) row
  | Fcontainer_image => set_container_image (container_image self) row
  | Finstance_type => set_instance_type (instance_type self) row
  | Finstance_count => set_instance_count (instance_count self) row
  | Fstatus => set_status (status self) row
  end.

(** [Model.save(update_fields=...)].
    - Without [update_fields] every column is written and the [auto_now]
      column [updated] takes the clock; when the store has no row for the id
      the row is inserted, and the [auto_now_add] column [created] takes the
      clock too.
    - With an empty list nothing happens.
    - With a list only the listed columns are written, into a row that must
      exist; [updated] is refreshed only if it is listed. *)
Definition save (update_fields : option (list field)) : M unit :=
  fun st =>
    match update_fields with
    | None =>
        let self := set_updated (now env) (inst st) in
        let self :=
          match db st !! id self with
          | Some _ => self
          | None => set_created (now env) self
          end in
        let st' := with_db (<[id self := self]> (db st)) (with_inst self st) in
        (Ok tt, record (ESave None self) st')
    | Some [] => (Ok tt, st)
    | Some fields =>
        let self :=
          if existsb (field_eqb Fupdated) fields
          then set_updated (now env) (inst st) else inst st in
        match db st !! id self with
        | None => (Raise DatabaseError, with_inst self st)
        | Some row =>
            let row' := fold_right (write_field self) row fields in
            let st' := with_db (<[id self := row']> (db st)) (with_inst self st) in
            (Ok tt, record (ESave (Some fields) row') st')
        end
    end.

(** [subprocess.call(command, stdout=..., stderr=..., shell=True)]: blocks
    until the shell exits and returns its exit status. *)
Definition subprocess_call (command : string) (stdout stderr : option string)
  : M Z :=
  do _ <- emit (ECall command stdout stderr);
  ret (exit_status env command).

(** [with open(path, 'w') as f: body].  The file is created or truncated;
    it is closed however [body] leaves, also by an exception. *)
Definition with_open_w {A : Type} (path : string) (body : M A) : M A :=
  fun st =>
    if can_open env path then
      let (r, st') := body (record (EOpen path "w") (with_fs (<[path := ""]> (fs st)) st)) in
      (r, record (EClose path) st')
    else (Raise IOError, st).

(** [with open(path, 'r') as f: output = f.read()] *)
Definition read_file (path : string) : M string :=
  fun st =>
    match fs st !! path with
    | Some content =>
        (Ok content, record (EClose path) (record (ERead path) (record (EOpen path "r") st)))
    | None => (Raise IOError, st)
    end.

(** What the cache backend holds for [key] at the present time: the value,
    unless there is none or it has expired. *)
Definition cache_lookup (c : gmap string (string * Z)) (key : string)
  : option string :=
  match c !! key with
  | Some (value, expiry) => if now env <? expiry then Some value else None
  | None => None
  end.

(** [cache.get(key)] *)
Definition cache_get (key : string) : M (option string) :=
  fun st => (Ok (cache_lookup (cache st) key), record (ECacheGet key) st).

(** [cache.set(key, value, timeout=t)] *)
Definition cache_set (key value : string) (timeout : Z) : M unit :=
  fun st =>
    (Ok tt, record (ECacheSet key value timeout)
              (with_cache (<[key := (value, now env + timeout)]> (cache st)) st)).

(** ** The command lines *)

Definition setup_command (j : Job) : string :=
  "/var/src/hemelb/virtualenv/bin/python "
  +:+ "    /var/src/hemelb/Tools/setuptool/scripts/hemelb-setup-nogui "
  +:+ "    --stl " +:+ stl_file j +:+ " " +:+ profile_file j +:+ " ".

Definition provision_command (j : Job) : string :=
  "export ANSIBLE_HOST_KEY_CHECKING=False; "
  +:+ "        export AWS_SECRET_ACCESS_KEY=" +:+ AWS_SECRET_ACCESS_KEY settings +:+ "; "
  +:+ "        export AWS_ACCESS_KEY_ID=" +:+ AWS_ACCESS_KEY_ID settings +:+ "; "
  +:+ "        /var/www/hemeweb/virtualenv/bin/ansible-playbook "
  +:+ "        -u ubuntu "
  +:+ "        --extra-vars 'image=" +:+ HEMEWEB_IMAGE_ID settings
  +:+ " master_ip=" +:+ HOST_IP settings
  +:+ " worker_node_count=" +:+ Py.format_int (instance_count j) +:+ "  "
  +:+ "        instance_tags=" +:+ ("job-" +:+ UUID.str (id j))
  +:+ " input=" +:+ configuration_file j
  +:+ " output=" +:+ get_result_directory_path settings j +:+ " "
  +:+ "        worker_instance_type=" +:+ Py.format_opt (get_instance_id j)
  +:+ " log_file=" +:+ get_log_file_path settings j "hemelb"
  +:+ " core_count=" +:+ Py.format_int (get_core_count j)
  +:+ " container_image=" +:+ get_container_image_display j +:+ "' "
  +:+ "        jobs/scripts/aws_ec2.yml"
  +:+ "        ".

Definition vtu_command (j : Job) : string :=
  "/var/src/hemelb/virtualenv/bin/python "
  +:+ "        /var/src/hemelb/Tools/hemeTools/converters/GmyUnstructuredGridReader.py "
  +:+ "        " +:+ configuration_file j +:+ " " +:+ get_output_path settings j +:+ " ".

(** Both arguments of [format] are evaluated before the string is built, so
    the second one raising leaves no command. *)
Definition merge_command (j : Job) : result string :=
  let output_path := get_output_path settings j in
  match get_result_extracted_directory_path (recursion_limit env) j with
  | Ok extracted =>
      Ok ("/var/src/hemelb/virtualenv/bin/python "
          +:+ "        /var/src/hemelb/Tools/hemeTools/converters/ExtractedPropertyUnstructuredGridReader.py "
          +:+ "        " +:+ output_path +:+ " " +:+ extracted +:+ " ")
  | Raise e => Raise e
  end.

(** ** The setup task *)

Definition run_setup : M unit :=
  do job_instance <- get_self;
  let command := setup_command job_instance in
  do completed <- subprocess_call command None None;
  do _ <- (if completed =? 0 then
             do _ <- assign (fun j => set_configuration_file
                                        (Py.replace (stl_file j) ".stl" ".xml") j);
             do _ <- assign (fun j => set_input_file
                                        (Py.replace (stl_file j) ".stl" ".gmy") j);
             assign (set_status ADDED)
           else
             assign (set_status FAILED));
  save None.

(** ** The run task *)

(** The two nested [with] blocks of [run_job]: mark the job running, run the
    provisioning command, and on a non-zero exit status mark the job failed.
    The result says whether the function returned from inside the block. *)
Definition run_job_provision (command : string) (stdout stderr : string)
  : M bool :=
  with_open_w stdout
    (with_open_w stderr
       (do _ <- assign (set_status RUNNING);
        do _ <- save (Some [Fstatus]);
        do completed <- subprocess_call command (Some stdout) (Some stderr);
        if negb (completed =? 0) then
          do _ <- assign (set_status FAILED);
          do _ <- save (Some [Fstatus]);
          ret true
        else ret false)).

(** What follows the [with] blocks: the two conversions.  Each marks the job
    failed and returns when its command exits with status 0. *)
Definition run_job_convert : M unit :=
  do job_instance <- get_self;
  let command := vtu_command job_instance in
  do completed <- subprocess_call command None None;
  if completed =? 0 then
    do _ <- assign (set_status FAILED);
    save (Some [Fstatus])
  else
    do job_instance <- get_self;
    do command <- lift (merge_command job_instance);
    do completed <- subprocess_call command None None;
    if completed =? 0 then
      do _ <- assign (set_status FAILED);
      save (Some [Fstatus])
    else
      do _ <- assign (set_status DONE);
      save None.

Definition run_job : M unit :=
  do job_instance <- get_self;
  let command := provision_command job_instance in
  do returned <- run_job_provision command
                   (get_log_file_path settings job_instance "stdout")
                   (get_log_file_path settings job_instance "stderr");
  if returned : bool then ret tt else run_job_convert.

(** ** The log cache *)

Definition get_output (log_type : string) : M string :=
  do self <- get_self;
  let key := UUID.hex (id self) +:+ ":log:" +:+ log_type in
  do output <- cache_get key;
  match output with
  | Some cached => ret cached
  | None =>
      do output <- read_file (get_log_file_path settings self log_type);
      do _ <- (if negb (status self =? DONE) && negb (status self =? FAILED)
               then cache_set key output 5
               else cache_set key output 5000);
      ret output
  end.

End Tasks.

(** The command lines and paths stay folded during symbolic execution. *)
Arguments setup_command : simpl never.
Arguments provision_command : simpl never.
Arguments vtu_command : simpl never.
Arguments merge_command : simpl never.
Arguments get_log_file_path : simpl never.

(** ** Observations on an outcome *)

(** The events an execution added to the log. *)
Definition events_of {A : Type} (st : State) (out : result A * State)
  : list (event * gmap N Job) :=
  drop (length (log st)) (log (snd out)).

(** The status the durable store holds for job [i]. *)
Definition persisted_status (d : gmap N Job) (i : N) : option Z :=
  status <$> d !! i.

Definition is_call (e : event) : bool :=
  match e with ECall _ _ _ => true | _ => false end.

Definition is_save (e : event) : bool :=
  match e with ESave _ _ => true | _ => false end.

(** The commands launched, in order. *)
Definition calls (evs : list (event * gmap N Job)) : list string :=
  flat_map (fun x => match fst x with ECall c _ _ => [c] | _ => [] end) evs.

(** A save that writes [DONE] or [FAILED]. *)
Definition is_terminal_save (e : event) : bool :=
  match e with
  | ESave _ written => terminal (status written)
  | _ => false
  end.

(** Neither a save nor the launch of a command. *)
Definition is_quiet (e : event) : bool := negb (is_save e) && negb (is_call e).

(** Nothing is saved and nothing launched after a save of a terminal
    status. *)
Definition terminal_write_is_last (evs : list (event * gmap N Job)) : Prop :=
  forall (i k : nat) (e e' : event) (d d' : gmap N Job),
    evs !! i = Some (e, d) -> is_terminal_save e = true ->
    (i < k)%nat -> evs !! k = Some (e', d') -> is_quiet e' = true.

(** The same, as a check that runs. *)
Fixpoint terminal_write_is_lastb (evs : list (event * gmap N Job)) : bool :=
  match evs with
  | [] => true
  | x :: rest =>
      (if is_terminal_save (fst x)
       then forallb (fun y => is_quiet (fst y)) rest else true)
      && terminal_write_is_lastb rest
  end.

(** ** Fixtures *)

Module Fixture.

Definition settings : Settings :=
  mkSettings "/srv/jobs" "secret" "access" "ami-0" "10.0.0.1".

Definition uid : UUID.t := 255%N.

(** A freshly created job with both uploads in place. *)
Definition job : Job :=
  mkJob uid "" "" "/srv/jobs/000000000000000000000000000000ff/inputs/foo.stl"
        "/srv/jobs/000000000000000000000000000000ff/inputs/foo.pr2" ""
        100 100 1 2 1 ADDED.

(** The world around it: the row is stored, nothing cached, no files. *)
Definition state_of (j : Job) : State :=
  mkState j {[ id j := j ]} ∅ ∅ [].

(** Every command exits with [code]; files can be opened. *)
Definition env_all (code : Z) : Env :=
  mkEnv (fun _ => code) (fun _ => true) 1000 64.

(** Only the command [failing] exits with 1. *)
Definition env_failing (failing : string) : Env :=
  mkEnv (fun c => if String.eqb c failing then 1 else 0) (fun _ => true) 1000 64.

(** The same job after it has completed. *)
Definition done_job : Job := set_status DONE job.

(** The stored row has gained an output archive that the in-memory instance
    has not seen. *)
Definition stale_state : State :=
  mkState job
    {[ uid := set_output_file
                "/srv/jobs/000000000000000000000000000000ff/result/out.tar.gz"
                job ]}
    ∅ ∅ [].

End Fixture.

(** ** Character classes *)

(** Every character of [s] satisfies [p]. *)
Fixpoint str_all (p : ascii -> bool) (s : string) : bool :=
  match s with
  | EmptyString => true
  | String c rest => p c && str_all p rest
  end.

(** A lower-case hexadecimal digit. *)
Definition is_hex_char (c : ascii) : bool :=
  let n := N_of_ascii c in
  ((48 <=? n) && (n <=? 57) || (97 <=? n) && (n <=? 102))%N.

Definition is_hex_or_dash (c : ascii) : bool :=
  is_hex_char c || Ascii.eqb c "-".

(** The value of a hexadecimal digit, and the number a string of such digits
    spells (most significant first): the inverse of [UUID.hex]. *)
Definition hex_value (c : ascii) : N :=
  let n := N_of_ascii c in
  (if n <=? 57 then n - 48 else n - 87)%N.

Fixpoint unhex_from (acc : N) (s : string) : N :=
  match s with
  | EmptyString => acc
  | String c rest => unhex_from (16 * acc + hex_value c)%N rest
  end.

Definition unhex (s : string) : N := unhex_from 0%N s.

(** ** The choice tables *)

Definition CONTAINER_CHOICES : list (Z * string) :=
  [(1, "seiryuz/hemelb-core:0.0.2"); (2, "seiryuz/hemelb-core:0.0.3")].

Definition INSTANCE_CHOICES : list (Z * string) :=
  [(2, "2 Cores"); (4, "4 Cores"); (8, "8 Cores"); (16, "16 Cores")].

Definition STATUS_CHOICES : list (Z * string) :=
  [(ADDED, "Added"); (QUEUED, "Queued"); (RUNNING, "Running");
   (DONE, "Done"); (FAILED, "Failed"); (PREPROCESSING, "Preprocessing")].

(** [dict(choices).get(value)]: the label of [value], if it is a choice; a
    later pair wins over an earlier one with the same value. *)
Fixpoint choice_label (choices : list (Z * string)) (value : Z)
  : option string :=
  match choices with
  | [] => None
  | (v, label) :: rest =>
      match choice_label rest value with
      | Some later => Some later
      | None => if value =? v then Some label else None
      end
  end.

(** [migrations/0012_auto_20160803_1124.py]: the choices of [status] as the
    migration altered the column. *)
Module Migration0012.

Definition status_choices : list (Z * string) :=
  [(1, "Added"); (2, "Queued"); (10, "Running");
   (6, "Running postprocessing scripts"); (3, "Done"); (0, "Failed");
   (4, "Preprocessing"); (5, "Previous Job on S3")].

End Migration0012.

(** ** Pages, packaging and directories *)

(** [s.split(sep)[0]] for a separator of one character: what precedes its
    first occurrence, or all of [s] when there is none. *)
Fixpoint split_head (sep : ascii) (s : string) : string :=
  match s with
  | EmptyString => EmptyString
  | String c rest =>
      if Ascii.eqb c sep then EmptyString else String c (split_head sep rest)
  end.

Section Pages.

Variable settings : Settings.
Variable env : Env.

(** [django.core.urlresolvers.reverse(name, kwargs={"pk": pk})]: the URL
    configuration is the project's and is taken as given. *)
Variable reverse : string -> string -> string.

(** [__repr__], which [__str__] returns too. *)
Definition repr (self : Job) : string := UUID.hex (id self).

Definition get_absolute_url (self : Job) : string :=
  reverse "jobs:details" (UUID.str (id self)).

Definition get_next_step_url (self : Job) : string :=
  if status self =? ADDED
  then reverse "jobs:configure1" (UUID.str (id self))
  else if status self =? PREPROCESSING
       then reverse "jobs:preprocessing" (UUID.str (id self))
       else get_absolute_url self.

(** What [get_container_image_url] gives: the address, or the
    [AttributeError] of calling [split] on an integer. *)
Inductive url_result : Type :=
| Url (url : string)
| AttributeError.

(** [get_container_image_display()] returns the label of the choice, a
    string; for a value that is no choice it returns the value itself, an
    integer, which has no [split]. *)
Definition get_container_image_url (self : Job) : url_result :=
  match choice_label CONTAINER_CHOICES (container_image self) with
  | Some label =>
      let container_string := split_head ":" label in
      Url ("http://hub.docker.com/r/" +:+ container_string)
  | None => AttributeError
  end.

(** The archive command of [package_output]; the arguments of [format] are
    evaluated left to right before the string is built. *)
Definition package_command (j : Job) : result string :=
  let packaged := get_packaged_output_path settings j in
  match get_result_extracted_directory_path (recursion_limit env) j with
  | Ok extracted =>
      Ok ("tar -czf " +:+ packaged +:+ " " +:+ extracted +:+ " ")
  | Raise e => Raise e
  end.

Definition package_output : M unit :=
  do self <- get_self;
  do command <- lift (package_command self);
  do _ <- subprocess_call env command None None;
  do _ <- assign (fun j => set_output_file
                             (get_packaged_output_path settings j) j);
  save env None.

End Pages.

(** The directories and files [prepare_directories] works on. *)
Record Disk : Type := mkDisk {
  dirs : gset string;           (* the directories made so far *)
  files : gmap string string    (* path -> file content *)
}.

(** [OSError] with [errno.EEXIST]. *)
Inductive oserror : Type := EEXIST.

(** [os.makedirs(name)]: makes the leaf directory, and any missing parent
    along the way (parents are not tracked); raises when the leaf is already
    there.  Other causes of failure (permissions, a file in the way) are
    outside the model. *)
Definition makedirs (name : string) (d : Disk) : option oserror * Disk :=
  if decide (name ∈ dirs d) then (Some EEXIST, d)
  else (None, mkDisk ({[name]} ∪ dirs d) (files d)).

(** [open(path, 'a').close()]: creates the file empty when it is missing and
    leaves an existing one as it is. *)
Definition touch (path : string) (d : Disk) : Disk :=
  match files d !! path with
  | Some _ => d
  | None => mkDisk (dirs d) (<[path := ""]> (files d))
  end.

(** [prepare_directories]: what was raised, if anything, and the disk it
    leaves. *)
Definition prepare_directories (settings : Settings) (self : Job) (d : Disk)
  : option oserror * Disk :=
  match makedirs (get_input_directory_path settings self) d with
  | (Some e, d1) => (Some e, d1)
  | (None, d1) =>
      match makedirs (get_log_directory_path settings self) d1 with
      | (Some e, d2) => (Some e, d2)
      | (None, d2) =>
          (None,
           touch (get_log_file_path settings self "hemelb")
             (touch (get_log_file_path settings self "stderr")
                (touch (get_log_file_path settings self "stdout") d2)))
      end
  end.

(** * Properties *)

(** ** Instance sizing *)

(** C10.  [get_instance_id] maps the instance types 2, 4, 8 and 16 to
    'c4.large', 'c4.xlarge', 'c4.2xlarge' and 'c4.4xlarge', and it returns
    [None] exactly when the instance type is none of these four. *)
Theorem get_instance_id_fixed_set (j : Job) :
  (instance_type j = 2 -> get_instance_id j = Some "c4.large") /\
  (instance_type j = 4 -> get_instance_id j = Some "c4.xlarge") /\
  (instance_type j = 8 -> get_instance_id j = Some "c4.2xlarge") /\
  (instance_type j = 16 -> get_instance_id j = Some "c4.4xlarge") /\
  (get_instance_id j = None <-> ~ In (instance_type j) [2; 4; 8; 16]).
Proof.
  unfold get_instance_id.
  repeat split; try (intros ->; reflexivity).
  - intros H Hin.
    destruct Hin as [E | [E | [E | [E | []]]]]; rewrite <- E in H; discriminate H.
  - intros Hout.
    destruct (Z.eqb_spec (instance_type j) 2) as [E | _];
      [exfalso; apply Hout; rewrite E; simpl; tauto |].
    destruct (Z.eqb_spec (instance_type j) 4) as [E | _];
      [exfalso; apply Hout; rewrite E; simpl; tauto |].
    destruct (Z.eqb_spec (instance_type j) 8) as [E | _];
      [exfalso; apply Hout; rewrite E; simpl; tauto |].
    destruct (Z.eqb_spec (instance_type j) 16) as [E | _];
      [exfalso; apply Hout; rewrite E; simpl; tauto |].
    reflexivity.
Qed.

Lemma get_instance_id_fixed_set_witness :
  get_instance_id (set_instance_type 8 Fixture.job) = Some "c4.2xlarge" /\
  get_instance_id (set_instance_type 3 Fixture.job) = None.
Proof.
  split.
  - apply (get_instance_id_fixed_set (set_instance_type 8 Fixture.job)).
    reflexivity.
  - apply (get_instance_id_fixed_set (set_instance_type 3 Fixture.job)).
    simpl. intros [E | [E | [E | [E | []]]]]; discriminate E.
Defined.

(** ** Path resolver *)

(** The seven resolvers that return: each is a total function of the
    settings, the job id and (for log files) the log type. *)
Lemma path_resolvers_depend_on_id (settings : Settings) (j1 j2 : Job) :
  id j1 = id j2 ->
  get_job_directory_path settings j1 = get_job_directory_path settings j2 /\
  get_input_directory_path settings j1 = get_input_directory_path settings j2 /\
  get_log_directory_path settings j1 = get_log_directory_path settings j2 /\
  get_result_directory_path settings j1 = get_result_directory_path settings j2 /\
  get_output_path settings j1 = get_output_path settings j2 /\
  get_packaged_output_path settings j1 = get_packaged_output_path settings j2 /\
  (forall log_type,
      get_log_file_path settings j1 log_type
      = get_log_file_path settings j2 log_type).
Proof.
  intros E.
  unfold get_output_path, get_packaged_output_path, get_log_file_path,
    get_input_directory_path, get_log_directory_path,
    get_result_directory_path, get_job_directory_path.
  rewrite E. repeat split.
Qed.

(** The self-call uses up whatever depth is left. *)
Lemma extracted_path_exhausts_depth (depth : nat) (j : Job) :
  get_result_extracted_directory_path depth j = Raise RecursionError.
Proof.
  induction depth as [| d IH]; simpl.
  - reflexivity.
  - rewrite IH. reflexivity.
Qed.

(** C8.  [get_result_extracted_directory_path] does not return a path:
    whatever recursion limit the interpreter runs with and whatever the job,
    the call ends in the recursion error, so no path [p] is its result. *)
Theorem get_result_extracted_directory_path_never_returns
  (depth : nat) (j : Job) :
  get_result_extracted_directory_path depth j = Raise RecursionError /\
  forall p : string, get_result_extracted_directory_path depth j <> Ok p.
Proof.
  rewrite extracted_path_exhausts_depth. split.
  - reflexivity.
  - intros p Hp. discriminate Hp.
Qed.

(** ** Log cache *)

Lemma events_of_app {A : Type} (st : State) (r : result A) (st' : State)
  (evs : list (event * gmap N Job)) :
  log st' = (log st ++ evs)%list -> events_of st (r, st') = evs.
Proof.
  intros E. unfold events_of. simpl. rewrite E. apply drop_app_length.
Qed.

(** Bring the log of a symbolically executed task into the shape
    [log st ++ events] and read the events off. *)
Ltac read_events :=
  unfold events_of; simpl; rewrite <- ?app_assoc; simpl;
  rewrite ?drop_app_length.

Lemma not_terminal_status (s : Z) :
  negb (s =? DONE) && negb (s =? FAILED) = negb (terminal s).
Proof. unfold terminal. rewrite negb_orb. reflexivity. Qed.

(** C6.  On a cache hit [get_output] returns the cached content and touches
    neither the file nor the cache.  On a miss with the log file in place it
    returns the whole content of the file and stores it under the key, with
    timeout 5 when the status is neither [DONE] nor [FAILED] and timeout 5000
    when it is one of them. *)
Theorem get_output_read_through
  (settings : Settings) (env : Env) (log_type : string) (st : State) :
  let key := UUID.hex (id (inst st)) +:+ ":log:" +:+ log_type in
  let path := get_log_file_path settings (inst st) log_type in
  let out := get_output settings env log_type st in
  let ttl := if terminal (status (inst st)) then 5000 else 5 in
  (forall cached : string,
      cache_lookup env (cache st) key = Some cached ->
      fst out = Ok cached /\
      events_of st out = [(ECacheGet key, db st)] /\
      cache (snd out) = cache st /\ fs (snd out) = fs st) /\
  (forall content : string,
      cache_lookup env (cache st) key = None ->
      fs st !! path = Some content ->
      fst out = Ok content /\
      map fst (events_of st out)
      = [ECacheGet key; EOpen path "r"; ERead path; EClose path;
         ECacheSet key content ttl] /\
      cache (snd out) = <[key := (content, now env + ttl)]> (cache st) /\
      cache_lookup env (cache (snd out)) key = Some content).
Proof.
  intros key path out ttl. subst out. split.
  - intros cached Hhit.
    unfold get_output, bind, get_self, cache_get, ret.
    fold key. rewrite Hhit. simpl.
    split; [reflexivity |]. split; [| split; reflexivity].
    apply events_of_app. reflexivity.
  - intros content Hmiss Hfile.
    unfold get_output, bind, get_self, cache_get, read_file, ret.
    fold key. fold path. rewrite Hmiss. simpl. rewrite Hfile.
    rewrite not_terminal_status. subst ttl.
    destruct (terminal (status (inst st))); simpl;
      (split; [reflexivity |]; split; [read_events; reflexivity |];
       split; [reflexivity |]);
      unfold cache_lookup; rewrite lookup_insert_eq.
    + destruct (Z.ltb_spec (now env) (now env + 5000)); [reflexivity | lia].
    + destruct (Z.ltb_spec (now env) (now env + 5)); [reflexivity | lia].
Qed.

Lemma get_output_read_through_witness :
  let st := with_fs {[ get_log_file_path Fixture.settings Fixture.job "stdout"
                       := "step 1" ]} (Fixture.state_of Fixture.job) in
  let out := get_output Fixture.settings (Fixture.env_all 0) "stdout" st in
  fst out = Ok "step 1" /\
  fst (get_output Fixture.settings (Fixture.env_all 0) "stdout" (snd out))
  = Ok "step 1".
Proof.
  intros st out. split.
  - apply (proj2 (get_output_read_through Fixture.settings (Fixture.env_all 0)
                    "stdout" st)); reflexivity.
  - apply (proj1 (get_output_read_through Fixture.settings (Fixture.env_all 0)
                    "stdout" (snd out))). vm_compute. reflexivity.
Defined.

(** C9 (as amended).  With no log file in place:
    - on a cache miss [get_output] raises the I/O error and leaves the cache
      as it was, whereas with an empty log file in place of the missing one
      it returns the empty string: the two outcomes differ;
    - on a cache hit it returns the cached text with nothing but the cache
      lookup in the event log: the missing file goes unnoticed. *)
Theorem get_output_absent_file_raises
  (settings : Settings) (env : Env) (log_type : string) (st : State) :
  let key := UUID.hex (id (inst st)) +:+ ":log:" +:+ log_type in
  let path := get_log_file_path settings (inst st) log_type in
  fs st !! path = None ->
  (cache_lookup env (cache st) key = None ->
   fst (get_output settings env log_type st) = Raise IOError /\
   cache (snd (get_output settings env log_type st)) = cache st /\
   fst (get_output settings env log_type
          (with_fs (<[path := ""]> (fs st)) st)) = Ok "" /\
   fst (get_output settings env log_type st)
   <> fst (get_output settings env log_type
             (with_fs (<[path := ""]> (fs st)) st))) /\
  (forall cached : string,
      cache_lookup env (cache st) key = Some cached ->
      fst (get_output settings env log_type st) = Ok cached /\
      events_of st (get_output settings env log_type st)
      = [(ECacheGet key, db st)] /\
      cache (snd (get_output settings env log_type st)) = cache st).
Proof.
  intros key path Hfile. split.
  - intros Hmiss.
    assert (Habsent : get_output settings env log_type st
                      = (Raise IOError, record (ECacheGet key) st)).
    { unfold get_output, bind, get_self, cache_get, read_file.
      fold key. fold path. rewrite Hmiss. simpl. rewrite Hfile.
      reflexivity. }
    assert (Hempty : fst (get_output settings env log_type
                            (with_fs (<[path := ""]> (fs st)) st)) = Ok "").
    { unfold get_output, bind, get_self, cache_get, read_file. simpl.
      fold key. fold path. rewrite Hmiss. simpl.
      rewrite lookup_insert_eq.
      destruct (negb (status (inst st) =? DONE)
                && negb (status (inst st) =? FAILED)); reflexivity. }
    rewrite Habsent, Hempty. simpl. repeat split. discriminate.
  - intros cached Hhit.
    assert (Hcached : get_output settings env log_type st
                      = (Ok cached, record (ECacheGet key) st)).
    { unfold get_output, bind, get_self, cache_get, ret.
      fold key. rewrite Hhit. reflexivity. }
    rewrite Hcached. split; [reflexivity |]. split; [| reflexivity].
    apply events_of_app. reflexivity.
Qed.

Lemma get_output_absent_file_raises_witness :
  let key := UUID.hex Fixture.uid +:+ ":log:" +:+ "stdout" in
  let st := Fixture.state_of Fixture.job in
  let cached := with_cache {[ key := ("step 1", 1002) ]} st in
  fst (get_output Fixture.settings (Fixture.env_all 0) "stdout" st)
  = Raise IOError /\
  fst (get_output Fixture.settings (Fixture.env_all 0) "stdout" cached)
  = Ok "step 1".
Proof.
  intros key st cached. split.
  - apply (proj1 (get_output_absent_file_raises Fixture.settings
                    (Fixture.env_all 0) "stdout" st eq_refl)).
    reflexivity.
  - apply (proj2 (get_output_absent_file_raises Fixture.settings
                    (Fixture.env_all 0) "stdout" cached eq_refl)).
    vm_compute. reflexivity.
Defined.

(** C9 (as stated) fails: with no log file in place but an unexpired cache
    entry holding the empty string, [get_output] raises nothing and returns
    the empty string. *)
Lemma get_output_absent_file_cached :
  let key := UUID.hex Fixture.uid +:+ ":log:" +:+ "stdout" in
  let st := with_cache {[ key := ("", 1002) ]}
              (Fixture.state_of Fixture.job) in
  let out := get_output Fixture.settings (Fixture.env_all 0) "stdout" st in
  fs st !! get_log_file_path Fixture.settings Fixture.job "stdout" = None /\
  now (Fixture.env_all 0) = 1000 /\
  fst out = Ok "" /\
  fst out <> Raise IOError.
Proof.
  cbv zeta. split; [reflexivity |]. split; [reflexivity |].
  assert (Hout : fst (get_output Fixture.settings (Fixture.env_all 0) "stdout"
                        (with_cache
                           {[ UUID.hex Fixture.uid +:+ ":log:" +:+ "stdout"
                              := ("", 1002) ]}
                           (Fixture.state_of Fixture.job))) = Ok "")
    by (vm_compute; reflexivity).
  rewrite Hout. split; [reflexivity | discriminate].
Qed.

(** ** Setup task *)

(** Symbolic execution of [run_setup]: one command, then one full save of
    the instance, whose status and derived paths depend on the exit status. *)
Lemma run_setup_exec (env : Env) (st : State) :
  let j := inst st in
  let j1 :=
    if exit_status env (setup_command j) =? 0
    then set_status ADDED
           (set_input_file (Py.replace (stl_file j) ".stl" ".gmy")
              (set_configuration_file (Py.replace (stl_file j) ".stl" ".xml") j))
    else set_status FAILED j in
  let j2 :=
    match db st !! id j with
    | Some _ => set_updated (now env) j1
    | None => set_created (now env) (set_updated (now env) j1)
    end in
  let d := <[id j := j2]> (db st) in
  run_setup env st
  = (Ok tt,
     mkState j2 d (cache st) (fs st)
       (log st ++ [(ECall (setup_command j) None None, db st);
                   (ESave None j2, d)])).
Proof.
  unfold run_setup, bind, get_self, subprocess_call, emit, ret, assign, save,
    record, with_db, with_inst.
  simpl.
  destruct (exit_status env (setup_command (inst st)) =? 0); simpl;
    destruct (db st !! id (inst st)); simpl;
    rewrite <- app_assoc; reflexivity.
Qed.

(** C5.  [run_setup] always completes and stores the instance as the job's
    row.  When the setup tool exits with 0 the status is [ADDED] and
    [configuration_file] and [input_file] are derived from the stl name (by
    [replace]); when it exits with anything else the status is [FAILED] and
    the five artifact fields are those the job came with.  This holds for
    every incoming job, in particular for one in status [ADDED] with both
    uploads in place. *)
Theorem run_setup_outcome (env : Env) (st : State) :
  let j := inst st in
  let out := run_setup env st in
  let j' := inst (snd out) in
  fst out = Ok tt /\
  db (snd out) !! id j = Some j' /\
  stl_file j' = stl_file j /\
  profile_file j' = profile_file j /\
  output_file j' = output_file j /\
  (exit_status env (setup_command j) = 0 ->
   status j' = ADDED /\
   configuration_file j' = Py.replace (stl_file j) ".stl" ".xml" /\
   input_file j' = Py.replace (stl_file j) ".stl" ".gmy") /\
  (exit_status env (setup_command j) <> 0 ->
   status j' = FAILED /\
   configuration_file j' = configuration_file j /\
   input_file j' = input_file j).
Proof.
  intros j out j'. subst out j' j. rewrite run_setup_exec.
  cbv zeta. cbn [fst snd inst db].
  rewrite lookup_insert_eq.
  destruct (Z.eqb_spec (exit_status env (setup_command (inst st))) 0)
    as [Hzero | Hnonzero];
    destruct (db st !! id (inst st));
    repeat split; try reflexivity; contradiction.
Qed.

Lemma run_setup_outcome_witness :
  let ok := run_setup (Fixture.env_all 0) (Fixture.state_of Fixture.job) in
  let ko := run_setup (Fixture.env_all 1) (Fixture.state_of Fixture.job) in
  (status (inst (snd ok)) = ADDED /\
   configuration_file (inst (snd ok))
   = "/srv/jobs/000000000000000000000000000000ff/inputs/foo.xml" /\
   input_file (inst (snd ok))
   = "/srv/jobs/000000000000000000000000000000ff/inputs/foo.gmy") /\
  (status (inst (snd ko)) = FAILED /\
   configuration_file (inst (snd ko)) = "" /\
   input_file (inst (snd ko)) = "").
Proof.
  intros ok ko. split.
  - apply (run_setup_outcome (Fixture.env_all 0)
             (Fixture.state_of Fixture.job)).
    reflexivity.
  - apply (run_setup_outcome (Fixture.env_all 1)
             (Fixture.state_of Fixture.job)).
    simpl. discriminate.
Defined.

(** *** Path derivation *)

Lemma append_empty_r (s : string) : s +:+ "" = s.
Proof.
  induction s as [| c s IH]; [reflexivity |].
  change (String c s +:+ "") with (String c (s +:+ "")).
  rewrite IH. reflexivity.
Qed.

Lemma append_cons (c : ascii) (s t : string) :
  String c s +:+ t = String c (s +:+ t).
Proof. reflexivity. Qed.

Lemma prefix_cons (a b : ascii) (p s : string) :
  String.prefix (String a p) (String b s)
  = if ascii_dec a b then String.prefix p s else false.
Proof. reflexivity. Qed.

Lemma prefix_of_empty (a : ascii) (p : string) :
  String.prefix (String a p) "" = false.
Proof. reflexivity. Qed.

Lemma prefix_empty (s : string) : String.prefix "" s = true.
Proof. destruct s; reflexivity. Qed.

(** An occurrence of ".stl" at the head of [x.stl] lies within [x], unless
    [x] is empty: the extension has its only dot in front, so no occurrence
    straddles the end of [x]. *)
Lemma prefix_stl_app (x : string) :
  x <> "" ->
  String.prefix ".stl" (x +:+ ".stl") = String.prefix ".stl" x.
Proof.
  intros Hx.
  destruct x as [| c1 [| c2 [| c3 [| c4 x]]]]; [contradiction | | | |];
    rewrite ?append_cons; change ("" +:+ ".stl") with ".stl";
    rewrite ?prefix_cons, ?prefix_of_empty, ?prefix_empty;
    repeat match goal with
           | |- context [ascii_dec ?a ?b] =>
               destruct (ascii_dec a b) as [E | E];
               [try discriminate E; try subst | try congruence]
           end;
    reflexivity.
Qed.

(** When ".stl" does not occur in [x], replacing it in [x.stl] rewrites the
    extension and nothing else. *)
Lemma replace_stl_extension (x new : string) :
  Py.occurs ".stl" x = false ->
  Py.replace (x +:+ ".stl") ".stl" new = x +:+ new.
Proof.
  unfold Py.replace. induction x as [| c x IH]; intros Hocc.
  - change ("" +:+ ".stl") with ".stl". change ("" +:+ new) with new.
    simpl. apply append_empty_r.
  - simpl in Hocc. apply orb_false_elim in Hocc as [Hhead Htail].
    assert (Hpre : String.prefix ".stl" (String c x +:+ ".stl") = false).
    { rewrite prefix_stl_app by discriminate. exact Hhead. }
    change (String c x +:+ ".stl") with (String c (x +:+ ".stl")) in *.
    change (String c x +:+ new) with (String c (x +:+ new)).
    cbn [Py.replace_from]. rewrite Hpre.
    rewrite (IH Htail). reflexivity.
Qed.

(** C4.  With an stl name that contains ".stl" before its extension, the
    success branch of [run_setup] rewrites every occurrence: for the upload
    [model.stl.stl] it assigns [model.xml.xml] and [model.gmy.gmy], not
    [model.stl.xml] and [model.stl.gmy]. *)
Theorem run_setup_rewrites_every_stl :
  let x := "/srv/jobs/000000000000000000000000000000ff/inputs/model.stl" in
  let j := set_stl_file (x +:+ ".stl") Fixture.job in
  let j' := inst (snd (run_setup (Fixture.env_all 0) (Fixture.state_of j))) in
  configuration_file j'
  = "/srv/jobs/000000000000000000000000000000ff/inputs/model.xml.xml" /\
  input_file j'
  = "/srv/jobs/000000000000000000000000000000ff/inputs/model.gmy.gmy" /\
  configuration_file j' <> x +:+ ".xml" /\
  input_file j' <> x +:+ ".gmy".
Proof.
  vm_compute. repeat split; discriminate.
Qed.

(** X25.  Where the name has ".stl" as its extension only, the success
    branch assigns [x.xml] and [x.gmy]. *)
Lemma run_setup_derives_paths (env : Env) (st : State) (x : string) :
  stl_file (inst st) = x +:+ ".stl" ->
  Py.occurs ".stl" x = false ->
  exit_status env (setup_command (inst st)) = 0 ->
  configuration_file (inst (snd (run_setup env st))) = x +:+ ".xml" /\
  input_file (inst (snd (run_setup env st))) = x +:+ ".gmy".
Proof.
  intros Hname Hocc Hexit.
  rewrite run_setup_exec. cbv zeta. cbn [snd inst]. rewrite Hexit.
  cbn [Z.eqb].
  destruct (db st !! id (inst st));
    cbn [configuration_file input_file set_created set_updated set_status
         set_input_file set_configuration_file];
    rewrite Hname; split; apply replace_stl_extension; exact Hocc.
Qed.

(** ** Run task *)

Section Exec.

Variable settings : Settings.
Variable env : Env.

Lemma save_status_found (st : State) (row : Job) :
  db st !! id (inst st) = Some row ->
  save env (Some [Fstatus]) st
  = (Ok tt,
     mkState (inst st)
       (<[id (inst st) := set_status (status (inst st)) row]> (db st))
       (cache st) (fs st)
       (log st ++ [(ESave (Some [Fstatus]) (set_status (status (inst st)) row),
                    <[id (inst st) := set_status (status (inst st)) row]> (db st))])).
Proof.
  intros Hrow. unfold save. cbn [existsb field_eqb orb]. rewrite Hrow.
  reflexivity.
Qed.

Lemma save_status_missing (st : State) :
  db st !! id (inst st) = None ->
  save env (Some [Fstatus]) st = (Raise DatabaseError, st).
Proof.
  intros Hrow. unfold save. cbn [existsb field_eqb orb]. rewrite Hrow.
  destruct st; reflexivity.
Qed.

Lemma merge_command_raises (j : Job) :
  merge_command settings env j = Raise RecursionError.
Proof.
  unfold merge_command.
  rewrite extracted_path_exhausts_depth. reflexivity.
Qed.

Ltac exec :=
  cbv beta iota zeta delta
    [run_job run_job_provision run_job_convert bind get_self with_open_w
     subprocess_call emit ret assign lift record with_fs with_inst with_db];
  cbn [inst db cache fs log id status set_status negb].

(** Symbolic execution of [run_job], branch by branch. *)
Lemma run_job_exec (st : State) :
  let j := inst st in
  let out := get_log_file_path settings j "stdout" in
  let err := get_log_file_path settings j "stderr" in
  let cmd := provision_command settings j in
  let jr := set_status RUNNING j in
  let vtu := vtu_command settings jr in
  let fs1 := <[out := ""]> (fs st) in
  let fs2 := <[err := ""]> fs1 in
  run_job settings env st =
  if can_open env out then
    if can_open env err then
      match db st !! id j with
      | Some row =>
          let r1 := set_status RUNNING row in
          let d1 := <[id j := r1]> (db st) in
          let r2 := set_status FAILED r1 in
          let d2 := <[id j := r2]> d1 in
          let pre := [(EOpen out "w", db st); (EOpen err "w", db st);
                      (ESave (Some [Fstatus]) r1, d1);
                      (ECall cmd (Some out) (Some err), d1)] in
          if exit_status env cmd =? 0 then
            let post := [(EClose err, d1); (EClose out, d1);
                         (ECall vtu None None, d1)] in
            if exit_status env vtu =? 0 then
              (Ok tt,
               mkState (set_status FAILED jr) d2 (cache st) fs2
                 (log st ++ pre ++ post ++ [(ESave (Some [Fstatus]) r2, d2)]))
            else
              (Raise RecursionError,
               mkState jr d1 (cache st) fs2 (log st ++ pre ++ post))
          else
            (Ok tt,
             mkState (set_status FAILED jr) d2 (cache st) fs2
               (log st ++ pre ++ [(ESave (Some [Fstatus]) r2, d2);
                                  (EClose err, d2); (EClose out, d2)]))
      | None =>
          (Raise DatabaseError,
           mkState jr (db st) (cache st) fs2
             (log st ++ [(EOpen out "w", db st); (EOpen err "w", db st);
                         (EClose err, db st); (EClose out, db st)]))
      end
    else
      (Raise IOError,
       mkState j (db st) (cache st) fs1
         (log st ++ [(EOpen out "w", db st); (EClose out, db st)]))
  else (Raise IOError, st).
Proof.
  cbv zeta.
  destruct (can_open env (get_log_file_path settings (inst st) "stdout"))
    eqn:Ho; [| exec; rewrite Ho; reflexivity].
  destruct (can_open env (get_log_file_path settings (inst st) "stderr"))
    eqn:He; [| exec; rewrite Ho, He; exec; rewrite <- ?app_assoc; reflexivity].
  destruct (db st !! id (inst st)) as [row |] eqn:Hrow.
  2:{ exec. rewrite Ho, He. rewrite save_status_missing by exact Hrow.
      exec. rewrite <- ?app_assoc. reflexivity. }
  destruct (exit_status env (provision_command settings (inst st)) =? 0)
    eqn:Hp.
  2:{ exec. rewrite Ho, He. rewrite (save_status_found _ row) by exact Hrow.
      exec. rewrite Hp. exec.
      erewrite save_status_found
        by (cbn [inst db id set_status]; apply lookup_insert_eq).
      exec. rewrite <- ?app_assoc. reflexivity. }
  destruct (exit_status env
              (vtu_command settings (set_status RUNNING (inst st))) =? 0)
    eqn:Hv.
  - exec. rewrite Ho, He. rewrite (save_status_found _ row) by exact Hrow.
    exec. rewrite Hp. exec. rewrite Hv.
    erewrite save_status_found
      by (cbn [inst db id set_status]; apply lookup_insert_eq).
    exec. rewrite <- ?app_assoc. reflexivity.
  - exec. rewrite Ho, He. rewrite (save_status_found _ row) by exact Hrow.
    exec. rewrite Hp. exec. rewrite Hv. rewrite merge_command_raises.
    exec. rewrite <- ?app_assoc. reflexivity.
Qed.
End Exec.

(** C1.  With both log files opened, the job's row in the store and every
    command exiting with 0, [run_job] returns normally with the job marked
    [FAILED], in memory and in the store; the provisioning and conversion
    commands are the only ones launched, so the merge command never runs and
    [DONE] is not reached. *)
Theorem run_job_all_zero_ends_failed
  (settings : Settings) (env : Env) (st : State) (row : Job) :
  let j := inst st in
  let out := run_job settings env st in
  can_open env (get_log_file_path settings j "stdout") = true ->
  can_open env (get_log_file_path settings j "stderr") = true ->
  db st !! id j = Some row ->
  (forall command, exit_status env command = 0) ->
  fst out = Ok tt /\
  status (inst (snd out)) = FAILED /\
  persisted_status (db (snd out)) (id j) = Some FAILED /\
  calls (events_of st out)
  = [provision_command settings j;
     vtu_command settings (set_status RUNNING j)].
Proof.
  intros j out Ho He Hrow Hzero. subst out j.
  rewrite run_job_exec. cbv zeta.
  rewrite Ho, He, Hrow, !Hzero. cbn [Z.eqb].
  split; [reflexivity |]. split; [reflexivity |]. split.
  - unfold persisted_status. cbn [snd db]. rewrite lookup_insert_eq.
    reflexivity.
  - read_events. reflexivity.
Qed.

Lemma run_job_all_zero_ends_failed_witness :
  let out := run_job Fixture.settings (Fixture.env_all 0)
               (Fixture.state_of Fixture.job) in
  fst out = Ok tt /\
  status (inst (snd out)) = FAILED /\
  persisted_status (db (snd out)) Fixture.uid = Some FAILED /\
  calls (events_of (Fixture.state_of Fixture.job) out)
  = [provision_command Fixture.settings Fixture.job;
     vtu_command Fixture.settings (set_status RUNNING Fixture.job)].
Proof.
  apply (run_job_all_zero_ends_failed Fixture.settings (Fixture.env_all 0)
           (Fixture.state_of Fixture.job) Fixture.job); reflexivity.
Defined.

(** The events of [run_job], branch by branch. *)
Lemma run_job_events (settings : Settings) (env : Env) (st : State) :
  let j := inst st in
  let out := get_log_file_path settings j "stdout" in
  let err := get_log_file_path settings j "stderr" in
  let cmd := provision_command settings j in
  let vtu := vtu_command settings (set_status RUNNING j) in
  events_of st (run_job settings env st) =
  if can_open env out then
    if can_open env err then
      match db st !! id j with
      | Some row =>
          let r1 := set_status RUNNING row in
          let d1 := <[id j := r1]> (db st) in
          let r2 := set_status FAILED r1 in
          let d2 := <[id j := r2]> d1 in
          if exit_status env cmd =? 0 then
            if exit_status env vtu =? 0 then
              [(EOpen out "w", db st); (EOpen err "w", db st);
               (ESave (Some [Fstatus]) r1, d1);
               (ECall cmd (Some out) (Some err), d1);
               (EClose err, d1); (EClose out, d1); (ECall vtu None None, d1);
               (ESave (Some [Fstatus]) r2, d2)]
            else
              [(EOpen out "w", db st); (EOpen err "w", db st);
               (ESave (Some [Fstatus]) r1, d1);
               (ECall cmd (Some out) (Some err), d1);
               (EClose err, d1); (EClose out, d1); (ECall vtu None None, d1)]
          else
            [(EOpen out "w", db st); (EOpen err "w", db st);
             (ESave (Some [Fstatus]) r1, d1);
             (ECall cmd (Some out) (Some err), d1);
             (ESave (Some [Fstatus]) r2, d2);
             (EClose err, d2); (EClose out, d2)]
      | None =>
          [(EOpen out "w", db st); (EOpen err "w", db st);
           (EClose err, db st); (EClose out, db st)]
      end
    else [(EOpen out "w", db st); (EClose out, db st)]
  else [].
Proof.
  cbv zeta. rewrite run_job_exec. cbv zeta.
  destruct (can_open env (get_log_file_path settings (inst st) "stdout"));
    [| unfold events_of; cbn [snd]; apply drop_all].
  destruct (can_open env (get_log_file_path settings (inst st) "stderr"));
    [| apply events_of_app; reflexivity].
  destruct (db st !! id (inst st)) as [row |];
    [| apply events_of_app; reflexivity].
  destruct (exit_status env (provision_command settings (inst st)) =? 0);
    [| apply events_of_app; reflexivity].
  destruct (exit_status env
              (vtu_command settings (set_status RUNNING (inst st))) =? 0);
    apply events_of_app; reflexivity.
Qed.

(** X24.  When the conversion exits with a non-zero status, building the
    merge command raises and the job stays [RUNNING]. *)
Lemma run_job_vtu_failure_raises
  (settings : Settings) (env : Env) (st : State) (row : Job) :
  let j := inst st in
  let out := run_job settings env st in
  can_open env (get_log_file_path settings j "stdout") = true ->
  can_open env (get_log_file_path settings j "stderr") = true ->
  db st !! id j = Some row ->
  exit_status env (provision_command settings j) = 0 ->
  exit_status env (vtu_command settings (set_status RUNNING j)) <> 0 ->
  fst out = Raise RecursionError /\
  persisted_status (db (snd out)) (id j) = Some RUNNING.
Proof.
  intros j out Ho He Hrow Hp Hv. subst out j.
  rewrite run_job_exec. cbv zeta.
  apply Z.eqb_eq in Hp. apply Z.eqb_neq in Hv.
  rewrite Ho, He, Hrow, Hp, Hv.
  split; [reflexivity |].
  unfold persisted_status. cbn [snd db]. rewrite lookup_insert_eq.
  reflexivity.
Qed.

Lemma run_job_vtu_failure_raises_witness :
  let st := Fixture.state_of Fixture.job in
  let env := Fixture.env_failing
               (vtu_command Fixture.settings
                  (set_status RUNNING Fixture.job)) in
  let out := run_job Fixture.settings env st in
  fst out = Raise RecursionError /\
  persisted_status (db (snd out)) Fixture.uid = Some RUNNING.
Proof.
  intros st env out.
  apply (run_job_vtu_failure_raises Fixture.settings env st Fixture.job);
    vm_compute; try reflexivity; discriminate.
Defined.

(** No execution of [run_job] saves the status [DONE]. *)
Lemma run_job_never_saves_done
  (settings : Settings) (env : Env) (st : State)
  (uf : option (list field)) (row : Job) (snap : gmap N Job) :
  In (ESave uf row, snap) (events_of st (run_job settings env st)) ->
  status row <> DONE.
Proof.
  rewrite run_job_events. cbv zeta.
  destruct (can_open env (get_log_file_path settings (inst st) "stdout"));
    [| intros []].
  destruct (can_open env (get_log_file_path settings (inst st) "stderr"));
    [| cbn [In]; intuition discriminate].
  destruct (db st !! id (inst st)) as [row0 |];
    [| cbn [In]; intuition discriminate].
  destruct (exit_status env (provision_command settings (inst st)) =? 0);
    [destruct (exit_status env
                 (vtu_command settings (set_status RUNNING (inst st))) =? 0) |];
    cbn [In]; intros Hin;
    repeat (destruct Hin as [Hin | Hin]); try contradiction;
    try discriminate Hin; inversion Hin; subst; discriminate.
Qed.

(** Split an [In] over an explicit list into its cases and drop those that
    compare different events. *)
Ltac in_cases H :=
  cbn [In] in H;
  repeat (destruct H as [H | H]);
  try contradiction; try discriminate H.

(** C3.  In every execution of [run_job]:
    - whenever a command is launched, the store as it stands at the launch
      holds status [RUNNING] for the job, so an interruption while the
      command runs leaves [RUNNING] behind;
    - the provisioning launch comes right after the save that wrote
      [RUNNING], and no command is launched before it;
    - with both log files opened and the job's row in the store, the
      provisioning command is launched. *)
Theorem run_job_running_before_launch
  (settings : Settings) (env : Env) (st : State) :
  let j := inst st in
  let out := get_log_file_path settings j "stdout" in
  let err := get_log_file_path settings j "stderr" in
  let launch := ECall (provision_command settings j) (Some out) (Some err) in
  let evs := events_of st (run_job settings env st) in
  (forall c so se snap,
      In (ECall c so se, snap) evs ->
      persisted_status snap (id j) = Some RUNNING) /\
  (forall snap,
      In (launch, snap) evs ->
      exists (i : nat) (row : Job),
        evs !! i = Some (ESave (Some [Fstatus]) row, snap) /\
        evs !! S i = Some (launch, snap) /\
        status row = RUNNING /\
        snap !! id j = Some row /\
        forall (k : nat) x,
          (k < i)%nat -> evs !! k = Some x -> is_call (fst x) = false) /\
  (can_open env out = true -> can_open env err = true ->
   is_Some (db st !! id j) ->
   exists snap, In (launch, snap) evs).
Proof.
  intros j out err launch evs. subst evs launch.
  rewrite run_job_events. cbv zeta. subst out err j.
  destruct (can_open env (get_log_file_path settings (inst st) "stdout"));
    [| repeat split; [intros ? ? ? ? [] | intros ? [] | discriminate]].
  destruct (can_open env (get_log_file_path settings (inst st) "stderr"));
    [| repeat split;
       [ intros ? ? ? ? Hin; in_cases Hin
       | intros ? Hin; in_cases Hin
       | discriminate ]].
  destruct (db st !! id (inst st)) as [row0 |];
    [| repeat split;
       [ intros ? ? ? ? Hin; in_cases Hin
       | intros ? Hin; in_cases Hin
       | intros _ _ [? Hnone]; discriminate Hnone ]].
  assert (Hrun : persisted_status
                   (<[id (inst st) := set_status RUNNING row0]> (db st))
                   (id (inst st)) = Some RUNNING).
  { unfold persisted_status. rewrite lookup_insert_eq. reflexivity. }
  assert (Hquiet : forall (k : nat) (x : event * gmap N Job)
                     (a b : event * gmap N Job)
                     (rest : list (event * gmap N Job)),
             is_call (fst a) = false -> is_call (fst b) = false ->
             (k < 2)%nat -> (a :: b :: rest) !! k = Some x ->
             is_call (fst x) = false).
  { intros k x a b rest Ha Hb Hk Hx.
    destruct k as [| [| k]]; [| | lia]; cbn in Hx; inversion Hx; subst;
      assumption. }
  destruct (exit_status env (provision_command settings (inst st)) =? 0);
    [destruct (exit_status env
                 (vtu_command settings (set_status RUNNING (inst st))) =? 0) |];
    (split; [| split]);
    try (intros c so se snap Hin; in_cases Hin; inversion Hin; subst;
         exact Hrun);
    try (intros snap Hin; in_cases Hin; inversion Hin; subst;
         exists 2%nat, (set_status RUNNING row0);
         split; [reflexivity |]; split; [reflexivity |];
         split; [reflexivity |]; split; [apply lookup_insert_eq |];
         intros k x Hk Hx; eapply Hquiet; [| | exact Hk | exact Hx];
         reflexivity);
    try (intros _ _ _; eexists; cbn [In]; right; right; right; left;
         reflexivity).
Qed.

Lemma run_job_running_before_launch_witness :
  let j := Fixture.job in
  let st := Fixture.state_of j in
  let evs := events_of st
               (run_job Fixture.settings (Fixture.env_all 1) st) in
  exists snap,
    In (ECall (provision_command Fixture.settings j)
          (Some (get_log_file_path Fixture.settings j "stdout"))
          (Some (get_log_file_path Fixture.settings j "stderr")), snap) evs /\
    persisted_status snap Fixture.uid = Some RUNNING.
Proof.
  intros j st evs.
  destruct (run_job_running_before_launch Fixture.settings
              (Fixture.env_all 1) st) as (Hsnap & _ & Hlaunch).
  destruct Hlaunch as [snap Hin];
    [reflexivity | reflexivity | exists Fixture.job; reflexivity |].
  exists snap. split; [exact Hin |].
  exact (Hsnap _ _ _ _ Hin).
Defined.

(** ** Terminal status *)

Lemma forallb_lookup {A : Type} (f : A -> bool) (l : list A) (k : nat) (x : A) :
  forallb f l = true -> l !! k = Some x -> f x = true.
Proof.
  revert k. induction l as [| a l IH]; intros k Hall Hk.
  - destruct k; discriminate Hk.
  - cbn [forallb] in Hall. apply andb_prop in Hall as [Ha Hl].
    destruct k as [| k]; cbn in Hk.
    + inversion Hk; subst. exact Ha.
    + exact (IH k Hl Hk).
Qed.

Lemma terminal_write_is_lastb_sound (evs : list (event * gmap N Job)) :
  terminal_write_is_lastb evs = true -> terminal_write_is_last evs.
Proof.
  induction evs as [| x evs IH]; intros Hb i k e e' d d' Hi Hterm Hlt Hk.
  - destruct i; discriminate Hi.
  - cbn [terminal_write_is_lastb] in Hb. apply andb_prop in Hb as [Hx Hrest].
    destruct k as [| k]; [lia |]. cbn in Hk.
    destruct i as [| i]; cbn in Hi.
    + inversion Hi; subst. cbn [fst] in Hx. rewrite Hterm in Hx.
      exact (forallb_lookup (fun y => is_quiet (fst y)) evs k (e', d') Hx Hk).
    + apply (IH Hrest i k e e' d d' Hi Hterm); [lia | exact Hk].
Qed.

(** C2 (as amended).
    - Within one execution of [run_setup] or of [run_job], once the task has
      saved [DONE] or [FAILED] it saves nothing more and launches no further
      command: the terminal status it wrote stands until the task ends.
    - Neither task looks at the incoming status.  [run_setup] ends with
      [ADDED] stored when the setup tool exits with 0 and with [FAILED] stored
      otherwise, whatever the status was.  [run_job], whenever both log files
      open and the store has the job's row, stores [RUNNING] as its first
      write, whatever the status was. *)
Theorem terminal_write_ends_task
  (settings : Settings) (env : Env) (st : State) :
  let j := inst st in
  let ran := events_of st (run_job settings env st) in
  terminal_write_is_last (events_of st (run_setup env st)) /\
  terminal_write_is_last ran /\
  persisted_status (db (snd (run_setup env st))) (id j)
  = Some (if exit_status env (setup_command j) =? 0 then ADDED else FAILED) /\
  (forall row : Job,
      can_open env (get_log_file_path settings j "stdout") = true ->
      can_open env (get_log_file_path settings j "stderr") = true ->
      db st !! id j = Some row ->
      ran !! 2%nat
      = Some (ESave (Some [Fstatus]) (set_status RUNNING row),
              <[id j := set_status RUNNING row]> (db st)) /\
      persisted_status (<[id j := set_status RUNNING row]> (db st)) (id j)
      = Some RUNNING /\
      forall (k : nat) x,
        (k < 2)%nat -> ran !! k = Some x -> is_save (fst x) = false).
Proof.
  cbv zeta. split; [| split; [| split]].
  - apply terminal_write_is_lastb_sound.
    rewrite run_setup_exec. cbv zeta.
    erewrite events_of_app by reflexivity.
    destruct (exit_status env (setup_command (inst st)) =? 0);
      destruct (db st !! id (inst st)); reflexivity.
  - apply terminal_write_is_lastb_sound.
    rewrite run_job_events. cbv zeta.
    destruct (can_open env (get_log_file_path settings (inst st) "stdout"));
      [| reflexivity].
    destruct (can_open env (get_log_file_path settings (inst st) "stderr"));
      [| reflexivity].
    destruct (db st !! id (inst st)) as [row0 |]; [| reflexivity].
    destruct (exit_status env (provision_command settings (inst st)) =? 0);
      [destruct (exit_status env
                   (vtu_command settings (set_status RUNNING (inst st))) =? 0) |];
      reflexivity.
  - rewrite run_setup_exec. cbv zeta. unfold persisted_status.
    cbn [snd db]. rewrite lookup_insert_eq.
    destruct (exit_status env (setup_command (inst st)) =? 0);
      destruct (db st !! id (inst st)); reflexivity.
  - intros row Ho He Hrow.
    assert (Hquiet : forall (k : nat) (x : event * gmap N Job)
                       (a b : event * gmap N Job)
                       (rest : list (event * gmap N Job)),
               is_save (fst a) = false -> is_save (fst b) = false ->
               (k < 2)%nat -> (a :: b :: rest) !! k = Some x ->
               is_save (fst x) = false).
    { intros k x a b rest Ha Hb Hk Hx.
      destruct k as [| [| k]]; [| | lia]; cbn in Hx; inversion Hx; subst;
        assumption. }
    rewrite run_job_events. cbv zeta. rewrite Ho, He, Hrow.
    split; [| split].
    + destruct (exit_status env (provision_command settings (inst st)) =? 0);
        [destruct (exit_status env
                     (vtu_command settings
                        (set_status RUNNING (inst st))) =? 0) |];
        reflexivity.
    + unfold persisted_status. rewrite lookup_insert_eq. reflexivity.
    + intros k x Hk Hx.
      destruct (exit_status env (provision_command settings (inst st)) =? 0);
        [destruct (exit_status env
                     (vtu_command settings
                        (set_status RUNNING (inst st))) =? 0) |];
        (eapply Hquiet; [| | exact Hk | exact Hx]; reflexivity).
Qed.

Lemma terminal_write_ends_task_witness :
  let st := Fixture.state_of Fixture.done_job in
  let row := set_status RUNNING Fixture.done_job in
  terminal (status (inst st)) = true /\
  events_of st (run_job Fixture.settings (Fixture.env_all 1) st) !! 2%nat
  = Some (ESave (Some [Fstatus]) row, <[Fixture.uid := row]> (db st)) /\
  persisted_status (<[Fixture.uid := row]> (db st)) Fixture.uid
  = Some RUNNING.
Proof.
  intros st row. split; [reflexivity |].
  destruct (proj2 (proj2 (proj2
              (terminal_write_ends_task Fixture.settings (Fixture.env_all 1)
                 st))) Fixture.done_job)
    as (Hfirst & Hstored & _); [reflexivity | reflexivity | reflexivity |].
  split; [exact Hfirst | exact Hstored].
Defined.

(** C2 (as stated) fails: a job that is [DONE], in memory and in the store,
    comes out of [run_setup] with status [ADDED], and [run_job] on it writes
    [RUNNING] before anything else. *)
Lemma terminal_status_overwritten :
  let st := Fixture.state_of Fixture.done_job in
  terminal (status (inst st)) = true /\
  persisted_status (db st) Fixture.uid = Some DONE /\
  persisted_status (db (snd (run_setup (Fixture.env_all 0) st))) Fixture.uid
  = Some ADDED /\
  persisted_status
    (db (snd (run_job Fixture.settings (Fixture.env_all 1) st))) Fixture.uid
  = Some FAILED /\
  exists snap,
    In (ESave (Some [Fstatus]) (set_status RUNNING Fixture.done_job), snap)
       (events_of st (run_job Fixture.settings (Fixture.env_all 1) st)).
Proof.
  cbv zeta. repeat split; try (vm_compute; reflexivity).
  eexists. rewrite run_job_events. cbv zeta. cbn [In].
  right. right. left. reflexivity.
Qed.

(** ** How the status is persisted *)

(** C7 (as amended).
    - Every save of [run_job] (the [RUNNING] write and the [FAILED] writes) is
      a partial update of the status column alone: the row written is the row
      the store held when the task began with only its status replaced (the
      [updated] timestamp included in what is kept), and the store changes at
      this job's row only.
    - [run_setup] launches its command and then saves once, with a full save:
      the row written is the whole in-memory instance, [updated] set to the
      clock. *)
Theorem status_writes_frame
  (settings : Settings) (env : Env) (st : State) :
  let j := inst st in
  (forall uf row snap,
      In (ESave uf row, snap) (events_of st (run_job settings env st)) ->
      uf = Some [Fstatus] /\
      (status row = RUNNING \/ status row = FAILED) /\
      exists row0,
        db st !! id j = Some row0 /\
        row = set_status (status row) row0 /\
        updated row = updated row0 /\
        snap = <[id j := row]> (db st)) /\
  (let j' := inst (snd (run_setup env st)) in
   events_of st (run_setup env st)
   = [(ECall (setup_command j) None None, db st);
      (ESave None j', <[id j := j']> (db st))] /\
   updated j' = now env /\
   db (snd (run_setup env st)) = <[id j := j']> (db st)).
Proof.
  intros j. subst j. split.
  - intros uf row snap. rewrite run_job_events. cbv zeta.
    destruct (can_open env (get_log_file_path settings (inst st) "stdout"));
      [| intros []].
    destruct (can_open env (get_log_file_path settings (inst st) "stderr"));
      [| intros Hin; in_cases Hin].
    destruct (db st !! id (inst st)) as [row0 |];
      [| intros Hin; in_cases Hin].
    destruct (exit_status env (provision_command settings (inst st)) =? 0);
      [destruct (exit_status env
                   (vtu_command settings (set_status RUNNING (inst st))) =? 0) |];
      intros Hin; in_cases Hin; inversion Hin; subst;
      (split; [reflexivity |]); cbn [status set_status];
      (split; [(left; reflexivity) || (right; reflexivity) |]);
      exists row0; (split; [reflexivity |]); (split; [reflexivity |]);
      (split; [reflexivity |]);
      rewrite ?insert_insert_eq; reflexivity.
  - rewrite run_setup_exec. cbv zeta.
    erewrite events_of_app by reflexivity. cbn [snd inst db].
    split; [reflexivity |]. split; [| reflexivity].
    destruct (db st !! id (inst st)); reflexivity.
Qed.

Lemma status_writes_frame_witness :
  let st := Fixture.state_of Fixture.job in
  let row := set_status RUNNING Fixture.job in
  let snap := <[Fixture.uid := row]> (db st) in
  In (ESave (Some [Fstatus]) row, snap)
     (events_of st (run_job Fixture.settings (Fixture.env_all 1) st)) /\
  exists row0,
    db st !! Fixture.uid = Some row0 /\
    row = set_status (status row) row0 /\
    updated row = updated row0 /\
    snap = <[Fixture.uid := row]> (db st).
Proof.
  intros st row snap.
  assert (Hin : In (ESave (Some [Fstatus]) row, snap)
                  (events_of st
                     (run_job Fixture.settings (Fixture.env_all 1) st))).
  { rewrite run_job_events. cbv zeta. cbn [In].
    right. right. left. reflexivity. }
  split; [exact Hin |].
  exact (proj2 (proj2 (proj1 (status_writes_frame Fixture.settings
                                (Fixture.env_all 1) st) _ _ _ Hin))).
Defined.

(** C7 (as stated) fails, on both counts.
    - When the setup tool fails, [run_setup] persists the [FAILED] status
      with a full save of the instance.  Here the stored row had gained an
      output archive the instance does not know of, and the save wipes it.
    - The partial updates of [run_job] write the status and not the
      timestamp: with the clock at 1000 the stored [updated] stays at 100
      while the status goes to [FAILED]. *)
Lemma run_setup_full_save_clobbers :
  let st := Fixture.stale_state in
  let out := run_setup (Fixture.env_all 1) st in
  let st2 := Fixture.state_of Fixture.job in
  let out2 := run_job Fixture.settings (Fixture.env_all 1) st2 in
  (persisted_status (db st) Fixture.uid = Some ADDED /\
   persisted_status (db (snd out)) Fixture.uid = Some FAILED /\
   output_file <$> db st !! Fixture.uid
   = Some "/srv/jobs/000000000000000000000000000000ff/result/out.tar.gz" /\
   output_file <$> db (snd out) !! Fixture.uid = Some "" /\
   map fst (events_of st out)
   = [ECall (setup_command Fixture.job) None None;
      ESave None (set_updated 1000 (set_status FAILED Fixture.job))]) /\
  (now (Fixture.env_all 1) = 1000 /\
   persisted_status (db (snd out2)) Fixture.uid = Some FAILED /\
   updated <$> db (snd out2) !! Fixture.uid = Some 100).
Proof.
  cbv zeta. repeat split; vm_compute; reflexivity.
Qed.

(** * Further properties *)

(** ** Identifiers *)

Lemma str_all_app (p : ascii -> bool) (a b : string) :
  str_all p (a +:+ b) = str_all p a && str_all p b.
Proof.
  induction a as [| c a IH]; [reflexivity |].
  rewrite append_cons. cbn [str_all]. rewrite IH. apply andb_assoc.
Qed.

Lemma str_all_substring (p : ascii -> bool) (s : string) (n m : nat) :
  str_all p s = true -> str_all p (substring n m s) = true.
Proof.
  revert n m. induction s as [| c s IH]; intros n m Hall.
  - destruct n, m; reflexivity.
  - cbn [str_all] in Hall. apply andb_prop in Hall as [Hc Hs].
    destruct n as [| n]; [destruct m as [| m] |]; cbn [substring].
    + reflexivity.
    + cbn [str_all]. rewrite Hc. exact (IH 0%nat m Hs).
    + exact (IH n m Hs).
Qed.

Lemma str_length_app (a b : string) :
  String.length (a +:+ b) = (String.length a + String.length b)%nat.
Proof.
  induction a as [| c a IH]; [reflexivity |].
  rewrite append_cons. cbn [String.length]. rewrite IH. reflexivity.
Qed.

Lemma str_length_substring (s : string) (n m : nat) :
  (n + m <= String.length s)%nat -> String.length (substring n m s) = m.
Proof.
  revert n m. induction s as [| c s IH]; intros n m Hle.
  - cbn [String.length] in Hle. destruct n, m; try reflexivity; lia.
  - cbn [String.length] in Hle.
    destruct n as [| n]; [destruct m as [| m] |]; cbn [substring].
    + reflexivity.
    + cbn [String.length]. rewrite (IH 0%nat m) by lia. reflexivity.
    + apply IH. lia.
Qed.

Lemma hex_digit_is_hex (d : N) : is_hex_char (UUID.hex_digit d) = true.
Proof.
  unfold UUID.hex_digit.
  destruct d as [| [[[[?|?|]|[?|?|]|]|[[?|?|]|[?|?|]|]|]|[[[?|?|]|[?|?|]|]|[[?|?|]|[?|?|]|]|]|]];
    reflexivity.
Qed.

Lemma hex_pad_all (w : nat) (n : N) (acc : string) :
  str_all is_hex_char acc = true ->
  str_all is_hex_char (UUID.hex_pad w n acc) = true.
Proof.
  revert n acc. induction w as [| w IH]; intros n acc Hacc; cbn [UUID.hex_pad].
  - exact Hacc.
  - apply IH. cbn [str_all]. rewrite hex_digit_is_hex. exact Hacc.
Qed.

Lemma hex_pad_length (w : nat) (n : N) (acc : string) :
  String.length (UUID.hex_pad w n acc) = (w + String.length acc)%nat.
Proof.
  revert n acc. induction w as [| w IH]; intros n acc; cbn [UUID.hex_pad].
  - reflexivity.
  - rewrite IH. cbn [String.length]. lia.
Qed.

Lemma str_all_weaken (p q : ascii -> bool) (s : string) :
  (forall c, p c = true -> q c = true) ->
  str_all p s = true -> str_all q s = true.
Proof.
  intros Hpq. induction s as [| c s IH]; [reflexivity |].
  cbn [str_all]. intros Hall. apply andb_prop in Hall as [Hc Hs].
  rewrite (Hpq c Hc), (IH Hs). reflexivity.
Qed.

Lemma uuid_hex_length (u : UUID.t) : String.length (UUID.hex u) = 32%nat.
Proof. unfold UUID.hex. rewrite hex_pad_length. reflexivity. Qed.

Lemma hex_all (u : UUID.t) : str_all is_hex_char (UUID.hex u) = true.
Proof. unfold UUID.hex. apply hex_pad_all. reflexivity. Qed.

Lemma uuid_str_length (u : UUID.t) : String.length (UUID.str u) = 36%nat.
Proof.
  unfold UUID.str. cbv zeta.
  rewrite !str_length_app, !str_length_substring by (rewrite uuid_hex_length; lia).
  reflexivity.
Qed.

Lemma str_all_hex_or_dash (u : UUID.t) :
  str_all is_hex_or_dash (UUID.str u) = true.
Proof.
  assert (Hdash : str_all is_hex_or_dash (UUID.hex u) = true).
  { apply (str_all_weaken is_hex_char); [| apply hex_all].
    intros c Hc. unfold is_hex_or_dash. rewrite Hc. reflexivity. }
  unfold UUID.str. cbv zeta.
  rewrite !str_all_app, !str_all_substring by exact Hdash. reflexivity.
Qed.

Lemma hex_value_digit (d : N) : (d < 16)%N -> hex_value (UUID.hex_digit d) = d.
Proof.
  intros Hd. unfold UUID.hex_digit.
  destruct d as [| [[[[?|?|]|[?|?|]|]|[[?|?|]|[?|?|]|]|]|[[[?|?|]|[?|?|]|]|[[?|?|]|[?|?|]|]|]|]];
    try reflexivity; lia.
Qed.

Lemma unhex_from_hex_pad (w : nat) (n acc : N) (rest : string) :
  unhex_from acc (UUID.hex_pad w n rest)
  = unhex_from (acc * 16 ^ N.of_nat w + n mod 16 ^ N.of_nat w)%N rest.
Proof.
  revert n acc rest. induction w as [| w IH]; intros n acc rest.
  - cbn [UUID.hex_pad]. change (N.of_nat 0) with 0%N.
    rewrite N.pow_0_r, N.mod_1_r, N.mul_1_r, N.add_0_r. reflexivity.
  - cbn [UUID.hex_pad]. rewrite IH. cbn [unhex_from].
    rewrite hex_value_digit.
    2:{ change 15%N with (N.ones 4). rewrite N.land_ones.
        apply N.mod_lt. discriminate. }
    f_equal.
    change 15%N with (N.ones 4). rewrite N.land_ones.
    rewrite N.shiftr_div_pow2. change (2 ^ 4)%N with 16%N.
    rewrite Nat2N.inj_succ, N.pow_succ_r'.
    rewrite (N.Div0.mod_mul_r n 16 (16 ^ N.of_nat w)). lia.
Qed.

Lemma unhex_of_hex (u : UUID.t) : unhex (UUID.hex u) = (u mod 2 ^ 128)%N.
Proof.
  unfold unhex, UUID.hex. rewrite unhex_from_hex_pad. reflexivity.
Qed.

Lemma hex_inj (u v : UUID.t) :
  (u < 2 ^ 128)%N -> (v < 2 ^ 128)%N -> UUID.hex u = UUID.hex v -> u = v.
Proof.
  intros Hu Hv Heq.
  rewrite <- (N.mod_small u (2 ^ 128)), <- (N.mod_small v (2 ^ 128))
    by assumption.
  rewrite <- !unhex_of_hex, Heq. reflexivity.
Qed.

(** X1.  The printed form of a job ([__repr__], which [__str__] returns too)
    is 32 lower-case hexadecimal digits, and it identifies the job: two jobs
    with ids below [2^128], as every UUID is, that print alike have the same
    id. *)
Theorem repr_identifies_job (j1 j2 : Job) :
  String.length (repr j1) = 32%nat /\
  str_all is_hex_char (repr j1) = true /\
  ((id j1 < 2 ^ 128)%N -> (id j2 < 2 ^ 128)%N ->
   repr j1 = repr j2 -> id j1 = id j2).
Proof.
  unfold repr. split; [apply uuid_hex_length |]. split; [apply hex_all |].
  apply hex_inj.
Qed.

Lemma repr_identifies_job_witness :
  repr Fixture.job = "000000000000000000000000000000ff" /\
  id Fixture.job = id Fixture.done_job.
Proof.
  split; [reflexivity |].
  apply (proj2 (proj2 (repr_identifies_job Fixture.job Fixture.done_job)));
    reflexivity.
Defined.

(** ** Directory layout *)

Lemma app_assoc_str (a b c : string) : (a +:+ b) +:+ c = a +:+ b +:+ c.
Proof.
  induction a as [| x a IH]; [reflexivity |].
  rewrite !append_cons, IH. reflexivity.
Qed.

Lemma app_length_inj (a a' b b' : string) :
  String.length a = String.length a' ->
  a +:+ b = a' +:+ b' -> a = a' /\ b = b'.
Proof.
  revert a'. induction a as [| x a IH]; intros [| x' a'] Hlen Heq;
    try discriminate Hlen.
  - split; [reflexivity | exact Heq].
  - rewrite !append_cons in Heq. injection Heq as Hx Hrest.
    cbn [String.length] in Hlen.
    destruct (IH a' ltac:(lia) Hrest) as [-> ->]. subst. split; reflexivity.
Qed.

Lemma startswith_slash_all (p : ascii -> bool) (s : string) :
  p "/"%char = false -> str_all p s = true -> Py.startswith s "/" = false.
Proof.
  intros Hp Hall. unfold Py.startswith.
  destruct s as [| c s]; [reflexivity |].
  rewrite prefix_cons. destruct (ascii_dec "/" c) as [<- | _]; [| reflexivity].
  cbn [str_all] in Hall. rewrite Hp in Hall. discriminate Hall.
Qed.

Lemma endswith_slash_all (p : ascii -> bool) (s : string) :
  p "/"%char = false -> str_all p s = true -> Py.endswith_slash s = false.
Proof.
  intros Hp. induction s as [| c s IH]; intros Hall; [reflexivity |].
  cbn [str_all] in Hall. apply andb_prop in Hall as [Hc Hs].
  destruct s as [| c' s].
  - cbn [Py.endswith_slash]. destruct (Ascii.eqb_spec c "/") as [-> | _];
      [| reflexivity].
    rewrite Hp in Hc. discriminate Hc.
  - exact (IH Hs).
Qed.

Lemma endswith_slash_app (a b : string) :
  b <> "" -> Py.endswith_slash (a +:+ b) = Py.endswith_slash b.
Proof.
  intros Hb. induction a as [| c a IH]; [reflexivity |].
  rewrite append_cons.
  destruct (a +:+ b) as [| c' r] eqn:Hab.
  - destruct a; [contradiction | discriminate Hab].
  - exact IH.
Qed.

Lemma app_nonempty_r (a b : string) : b <> "" -> a +:+ b <> "".
Proof.
  intros Hb. destruct a; [exact Hb | discriminate].
Qed.

(** Joining onto a directory that is not empty and does not end in a slash
    puts one slash in between, for a component that does not begin with
    one. *)
Lemma join_step_plain (d b : string) :
  d <> "" -> Py.endswith_slash d = false -> Py.startswith b "/" = false ->
  Py.join_step d b = d +:+ "/" +:+ b.
Proof.
  intros Hd Hend Hstart. unfold Py.join_step. rewrite Hstart, Hend.
  apply String.eqb_neq in Hd. rewrite Hd. reflexivity.
Qed.

Lemma hex_nonempty (u : UUID.t) : UUID.hex u <> "".
Proof.
  intros Heq. pose proof (uuid_hex_length u) as Hlen.
  rewrite Heq in Hlen. discriminate Hlen.
Qed.

(** The job directory: the upload root, a slash unless the root is empty or
    brings its own, and the hexadecimal id. *)
Lemma job_directory_shape (settings : Settings) (j : Job) :
  let root := JOB_FILES_UPLOAD_DIR settings in
  get_job_directory_path settings j
  = root +:+ (if String.eqb root "" || Py.endswith_slash root then "" else "/")
         +:+ UUID.hex (id j).
Proof.
  cbv zeta. unfold get_job_directory_path, Py.os_path_join. cbn [fold_left].
  unfold Py.join_step.
  rewrite (startswith_slash_all is_hex_char) by (reflexivity || apply hex_all).
  destruct (String.eqb (JOB_FILES_UPLOAD_DIR settings) ""
            || Py.endswith_slash (JOB_FILES_UPLOAD_DIR settings));
    reflexivity.
Qed.

Lemma job_directory_plain (settings : Settings) (j : Job) :
  get_job_directory_path settings j <> "" /\
  Py.endswith_slash (get_job_directory_path settings j) = false.
Proof.
  rewrite job_directory_shape. cbv zeta. split.
  - apply app_nonempty_r, app_nonempty_r, hex_nonempty.
  - rewrite !endswith_slash_app
      by (try apply app_nonempty_r; apply hex_nonempty).
    apply (endswith_slash_all is_hex_char); [reflexivity | apply hex_all].
Qed.

(** A plain component joined under the job directory. *)
Lemma join_under_job_directory (settings : Settings) (j : Job) (name : string) :
  let jd := get_job_directory_path settings j in
  Py.startswith name "/" = false -> name <> "" ->
  Py.endswith_slash name = false ->
  Py.join_step jd name = jd +:+ "/" +:+ name /\
  jd +:+ "/" +:+ name <> "" /\
  Py.endswith_slash (jd +:+ "/" +:+ name) = false.
Proof.
  intros jd Hs Hn He.
  destruct (job_directory_plain settings j) as [Hne Hend].
  split; [apply join_step_plain; assumption |].
  split; [apply app_nonempty_r, app_nonempty_r, Hn |].
  rewrite !endswith_slash_app by (try apply app_nonempty_r; exact Hn).
  exact He.
Qed.

Lemma log_directory_shape (settings : Settings) (j : Job) :
  get_log_directory_path settings j
  = get_job_directory_path settings j +:+ "/logs".
Proof.
  apply (join_under_job_directory settings j "logs");
    [reflexivity | discriminate | reflexivity].
Qed.

Lemma input_directory_shape (settings : Settings) (j : Job) :
  get_input_directory_path settings j
  = get_job_directory_path settings j +:+ "/inputs".
Proof.
  apply (join_under_job_directory settings j "inputs");
    [reflexivity | discriminate | reflexivity].
Qed.

Lemma log_file_shape (settings : Settings) (j : Job) (log_type : string) :
  Py.startswith log_type "/" = false ->
  get_log_file_path settings j log_type
  = get_job_directory_path settings j +:+ "/logs/" +:+ log_type.
Proof.
  intros Hs.
  destruct (join_under_job_directory settings j "logs")
    as (_ & Hne & Hend); [reflexivity | discriminate | reflexivity |].
  unfold get_log_file_path, Py.os_path_join. cbn [fold_left].
  rewrite log_directory_shape, join_step_plain;
    [| exact Hne | exact Hend | exact Hs].
  rewrite !app_assoc_str. reflexivity.
Qed.

(** X2.  The layout under a job's directory [jd] (the upload root joined with
    the hexadecimal id): [jd/inputs], [jd/logs], [jd/result], the converted
    output [jd/result/<id>.vtu] and the archive [jd/result/<id>.tar.gz]; a
    log type or an upload name that does not begin with a slash lands in
    [jd/logs/] and [jd/inputs/]. *)
Theorem job_layout (settings : Settings) (j : Job) :
  let jd := get_job_directory_path settings j in
  get_input_directory_path settings j = jd +:+ "/inputs" /\
  get_log_directory_path settings j = jd +:+ "/logs" /\
  get_result_directory_path settings j = jd +:+ "/result" /\
  get_output_path settings j
  = jd +:+ "/result/" +:+ UUID.str (id j) +:+ ".vtu" /\
  get_packaged_output_path settings j
  = jd +:+ "/result/" +:+ UUID.str (id j) +:+ ".tar.gz" /\
  (forall log_type,
      Py.startswith log_type "/" = false ->
      get_log_file_path settings j log_type = jd +:+ "/logs/" +:+ log_type) /\
  (forall filename,
      Py.startswith filename "/" = false ->
      job_directory_path settings j filename
      = jd +:+ "/inputs/" +:+ filename).
Proof.
  intros jd.
  destruct (job_directory_plain settings j) as [Hne Hend]. fold jd in Hne, Hend.
  pose proof (join_under_job_directory settings j) as Hsub.
  cbv zeta in Hsub. fold jd in Hsub.
  destruct (Hsub "inputs") as (Hin & Hin1 & Hin2);
    [reflexivity | discriminate | reflexivity |].
  destruct (Hsub "logs") as (Hlog & Hlog1 & Hlog2);
    [reflexivity | discriminate | reflexivity |].
  destruct (Hsub "result") as (Hres & Hres1 & Hres2);
    [reflexivity | discriminate | reflexivity |].
  assert (Hstr : forall ext : string,
             Py.startswith (UUID.str (id j) +:+ ext) "/" = false).
  { intros ext. unfold Py.startswith.
    pose proof (uuid_str_length (id j)) as Hlen.
    pose proof (str_all_hex_or_dash (id j)) as Hall.
    destruct (UUID.str (id j)) as [| c s]; [discriminate Hlen |].
    rewrite append_cons, prefix_cons.
    destruct (ascii_dec "/" c) as [<- | _]; [| reflexivity].
    cbn [str_all] in Hall. discriminate Hall. }
  assert (Hinputs : get_input_directory_path settings j = jd +:+ "/inputs")
    by exact Hin.
  assert (Hlogs : get_log_directory_path settings j = jd +:+ "/logs")
    by exact Hlog.
  assert (Hresult : get_result_directory_path settings j = jd +:+ "/result")
    by exact Hres.
  split; [exact Hinputs |]. split; [exact Hlogs |]. split; [exact Hresult |].
  split; [| split; [| split]].
  - unfold get_output_path, Py.os_path_join. cbn [fold_left].
    rewrite Hresult, join_step_plain;
      [| exact Hres1 | exact Hres2 | apply Hstr].
    rewrite !app_assoc_str. reflexivity.
  - unfold get_packaged_output_path, Py.os_path_join. cbn [fold_left].
    rewrite Hresult, join_step_plain;
      [| exact Hres1 | exact Hres2 | apply Hstr].
    rewrite !app_assoc_str. reflexivity.
  - intros log_type Hs. apply log_file_shape. exact Hs.
  - intros filename Hs.
    assert (Hup : job_directory_path settings j filename
                  = Py.join_step (get_input_directory_path settings j)
                      filename) by reflexivity.
    rewrite Hup, Hinputs, join_step_plain;
      [| exact Hin1 | exact Hin2 | exact Hs].
    rewrite !app_assoc_str. reflexivity.
Qed.

Lemma job_layout_witness :
  get_log_file_path Fixture.settings Fixture.job "stdout"
  = "/srv/jobs/000000000000000000000000000000ff/logs/stdout".
Proof.
  exact (proj1 (proj2 (proj2 (proj2 (proj2 (proj2
           (job_layout Fixture.settings Fixture.job))))))
           "stdout" eq_refl).
Defined.

(** X3.  Jobs whose ids differ (both below [2^128], as every UUID is) have
    different job directories. *)
Theorem job_directories_distinct (settings : Settings) (j1 j2 : Job) :
  (id j1 < 2 ^ 128)%N -> (id j2 < 2 ^ 128)%N ->
  id j1 <> id j2 ->
  get_job_directory_path settings j1 <> get_job_directory_path settings j2.
Proof.
  intros H1 H2 Hne Heq. apply Hne.
  rewrite !job_directory_shape in Heq. cbv zeta in Heq.
  apply app_length_inj in Heq as [_ Heq]; [| reflexivity].
  apply app_length_inj in Heq as [_ Heq]; [| reflexivity].
  exact (hex_inj _ _ H1 H2 Heq).
Qed.

Lemma job_directories_distinct_witness :
  get_job_directory_path Fixture.settings Fixture.job
  <> get_job_directory_path Fixture.settings
       (mkJob 256%N "" "" "" "" "" 0 0 1 2 1 ADDED).
Proof.
  apply (job_directories_distinct Fixture.settings);
    [reflexivity | reflexivity | discriminate].
Defined.

(** X4.  A log type that begins with a slash is taken as the path itself:
    the job's log directory is dropped, and on a cache miss [get_output]
    returns the content of that file. *)
Theorem absolute_log_type_escapes
  (settings : Settings) (env : Env) (log_type content : string) (st : State) :
  Py.startswith log_type "/" = true ->
  get_log_file_path settings (inst st) log_type = log_type /\
  (cache_lookup env (cache st)
     (UUID.hex (id (inst st)) +:+ ":log:" +:+ log_type) = None ->
   fs st !! log_type = Some content ->
   fst (get_output settings env log_type st) = Ok content).
Proof.
  intros Habs.
  assert (Hpath : get_log_file_path settings (inst st) log_type = log_type).
  { unfold get_log_file_path, Py.os_path_join. cbn [fold_left].
    unfold Py.join_step. rewrite Habs. reflexivity. }
  split; [exact Hpath |]. intros Hmiss Hfile.
  unfold get_output, bind, get_self, cache_get, read_file, ret.
  rewrite Hmiss. cbn [fst snd fs record]. rewrite Hpath, Hfile.
  destruct (negb (status (inst st) =? DONE)
            && negb (status (inst st) =? FAILED)); reflexivity.
Qed.

Lemma absolute_log_type_escapes_witness :
  let st := with_fs {[ "/etc/hostname" := "worker-1" ]}
              (Fixture.state_of Fixture.job) in
  get_log_file_path Fixture.settings Fixture.job "/etc/hostname"
  = "/etc/hostname" /\
  fst (get_output Fixture.settings (Fixture.env_all 0) "/etc/hostname" st)
  = Ok "worker-1".
Proof.
  intros st.
  destruct (absolute_log_type_escapes Fixture.settings (Fixture.env_all 0)
              "/etc/hostname" "worker-1" st eq_refl) as [Hpath Hread].
  split; [exact Hpath |]. apply Hread; reflexivity.
Defined.

(** ** Log cache, continued *)

(** Symbolic execution of [get_output], branch by branch. *)
Lemma get_output_exec
  (settings : Settings) (env : Env) (log_type : string) (st : State) :
  let key := UUID.hex (id (inst st)) +:+ ":log:" +:+ log_type in
  let path := get_log_file_path settings (inst st) log_type in
  let ttl := if terminal (status (inst st)) then 5000 else 5 in
  get_output settings env log_type st =
  match cache_lookup env (cache st) key with
  | Some cached => (Ok cached, record (ECacheGet key) st)
  | None =>
      match fs st !! path with
      | Some content =>
          (Ok content,
           mkState (inst st) (db st)
             (<[key := (content, now env + ttl)]> (cache st)) (fs st)
             (log st ++ [(ECacheGet key, db st); (EOpen path "r", db st);
                         (ERead path, db st); (EClose path, db st);
                         (ECacheSet key content ttl, db st)]))
      | None => (Raise IOError, record (ECacheGet key) st)
      end
  end.
Proof.
  cbv zeta.
  unfold get_output, bind, get_self, cache_get, read_file, ret.
  destruct (cache_lookup env (cache st)
              (UUID.hex (id (inst st)) +:+ ":log:" +:+ log_type));
    [reflexivity |].
  cbn [fst snd fs record].
  destruct (fs st !! get_log_file_path settings (inst st) log_type);
    [| reflexivity].
  rewrite not_terminal_status.
  destruct (terminal (status (inst st))); unfold cache_set, record, with_cache;
    cbn [inst db cache fs log negb]; rewrite <- ?app_assoc; reflexivity.
Qed.

Lemma cache_key_inj (u v : UUID.t) (s t : string) :
  (u < 2 ^ 128)%N -> (v < 2 ^ 128)%N ->
  UUID.hex u +:+ ":log:" +:+ s = UUID.hex v +:+ ":log:" +:+ t ->
  u = v /\ s = t.
Proof.
  intros Hu Hv Heq.
  apply app_length_inj in Heq as [Hhex Heq];
    [| rewrite !uuid_hex_length; reflexivity].
  apply app_length_inj in Heq as [_ Heq]; [| reflexivity].
  split; [exact (hex_inj _ _ Hu Hv Hhex) | exact Heq].
Qed.

(** X5.  Cache entries are kept apart by job and log type: whatever
    [get_output] does for one job and log type, what the cache holds for
    another job or another log type is as before. *)
Theorem get_output_keeps_other_entries
  (settings : Settings) (env : Env) (log_type : string) (st : State)
  (other : UUID.t) (other_type : string) :
  (id (inst st) < 2 ^ 128)%N -> (other < 2 ^ 128)%N ->
  (other, other_type) <> (id (inst st), log_type) ->
  cache_lookup env (cache (snd (get_output settings env log_type st)))
    (UUID.hex other +:+ ":log:" +:+ other_type)
  = cache_lookup env (cache st) (UUID.hex other +:+ ":log:" +:+ other_type).
Proof.
  intros Hid Hother Hne. rewrite get_output_exec. cbv zeta.
  destruct (cache_lookup env (cache st)
              (UUID.hex (id (inst st)) +:+ ":log:" +:+ log_type));
    [reflexivity |].
  destruct (fs st !! get_log_file_path settings (inst st) log_type);
    [| reflexivity].
  cbn [snd cache]. unfold cache_lookup. rewrite lookup_insert_ne; [reflexivity |].
  intros Hkey. apply Hne.
  destruct (cache_key_inj _ _ _ _ Hid Hother Hkey) as [-> ->]. reflexivity.
Qed.

Lemma get_output_keeps_other_entries_witness :
  let st := with_fs {[ get_log_file_path Fixture.settings Fixture.job "stdout"
                       := "step 1" ]} (Fixture.state_of Fixture.job) in
  cache_lookup (Fixture.env_all 0)
    (cache (snd (get_output Fixture.settings (Fixture.env_all 0) "stdout" st)))
    (UUID.hex Fixture.uid +:+ ":log:" +:+ "stderr")
  = None.
Proof.
  intros st.
  rewrite (get_output_keeps_other_entries Fixture.settings (Fixture.env_all 0)
             "stdout" st Fixture.uid "stderr");
    [reflexivity | reflexivity | reflexivity | discriminate].
Defined.

(** X6.  Freshness of the cache.  After a miss at time [t0] that read
    [content], a later call at time [t1] on the same job and log type, with
    the log file changed or gone in between:
    - before [t0 + ttl] it returns [content] again without looking at the
      file, where [ttl] is 5000 for a [DONE] or [FAILED] job and 5 otherwise;
    - from [t0 + ttl] on it goes back to the file: it returns the new
      content, or raises if the file is gone. *)
Theorem get_output_freshness
  (settings : Settings) (env0 env1 : Env) (log_type content : string)
  (st : State) (files : gmap string string) :
  let key := UUID.hex (id (inst st)) +:+ ":log:" +:+ log_type in
  let path := get_log_file_path settings (inst st) log_type in
  let ttl := if terminal (status (inst st)) then 5000 else 5 in
  let st1 := with_fs files (snd (get_output settings env0 log_type st)) in
  let again := get_output settings env1 log_type st1 in
  cache_lookup env0 (cache st) key = None ->
  fs st !! path = Some content ->
  (now env1 < now env0 + ttl ->
   fst again = Ok content /\
   map fst (events_of st1 again) = [ECacheGet key]) /\
  (now env0 + ttl <= now env1 ->
   fst again = match files !! path with
               | Some changed => Ok changed
               | None => Raise IOError
               end).
Proof.
  intros key path ttl st1 again Hmiss Hfile.
  assert (Hst1 : inst st1 = inst st /\ fs st1 = files /\
                 cache st1 = <[key := (content, now env0 + ttl)]> (cache st)).
  { subst st1. rewrite (get_output_exec settings env0). cbv zeta.
    fold key path ttl. rewrite Hmiss, Hfile. repeat split. }
  destruct Hst1 as (Hinst & Hfs & Hcache).
  assert (Hagain :
            again = match cache_lookup env1 (cache st1) key with
                    | Some cached => (Ok cached, record (ECacheGet key) st1)
                    | None =>
                        match files !! path with
                        | Some changed => (Ok changed, snd again)
                        | None => (Raise IOError, record (ECacheGet key) st1)
                        end
                    end).
  { subst again. rewrite get_output_exec. cbv zeta.
    rewrite Hinst, Hfs. fold key path.
    destruct (cache_lookup env1 (cache st1) key); [reflexivity |].
    destruct (files !! path); reflexivity. }
  assert (Hlook : cache_lookup env1 (cache st1) key
                  = if now env1 <? now env0 + ttl then Some content else None).
  { unfold cache_lookup. rewrite Hcache, lookup_insert_eq. reflexivity. }
  rewrite Hlook in Hagain. split.
  - intros Hlt. apply Z.ltb_lt in Hlt. rewrite Hlt in Hagain.
    rewrite Hagain. split; [reflexivity |].
    erewrite events_of_app by reflexivity. reflexivity.
  - intros Hge. apply Z.ltb_ge in Hge. rewrite Hge in Hagain.
    rewrite Hagain. destruct (files !! path); reflexivity.
Qed.

Lemma get_output_freshness_witness :
  let path := get_log_file_path Fixture.settings Fixture.job "stdout" in
  let st := with_fs {[ path := "step 1" ]} (Fixture.state_of Fixture.job) in
  let later (t : Z) := mkEnv (fun _ => 0) (fun _ => true) t 64 in
  let st1 := with_fs {[ path := "step 1, step 2" ]}
               (snd (get_output Fixture.settings (later 1000) "stdout" st)) in
  fst (get_output Fixture.settings (later 1004) "stdout" st1) = Ok "step 1" /\
  fst (get_output Fixture.settings (later 1005) "stdout" st1)
  = Ok "step 1, step 2".
Proof.
  intros path st later st1. split.
  - apply (proj1 (get_output_freshness Fixture.settings (later 1000)
                    (later 1004) "stdout" "step 1" st
                    {[ path := "step 1, step 2" ]} eq_refl eq_refl)).
    reflexivity.
  - etransitivity.
    + apply (proj2 (get_output_freshness Fixture.settings (later 1000)
                      (later 1005) "stdout" "step 1" st
                      {[ path := "step 1, step 2" ]} eq_refl eq_refl)).
      vm_compute. discriminate.
    + vm_compute. reflexivity.
Defined.

(** ** Run task, continued *)

(** X7.  Whenever [run_job] returns normally the job is [FAILED], in memory
    and in the store: no execution returns with any other status. *)
Theorem run_job_returns_only_failed
  (settings : Settings) (env : Env) (st : State) :
  let out := run_job settings env st in
  fst out = Ok tt ->
  status (inst (snd out)) = FAILED /\
  persisted_status (db (snd out)) (id (inst st)) = Some FAILED.
Proof.
  cbv zeta. rewrite run_job_exec. cbv zeta.
  destruct (can_open env (get_log_file_path settings (inst st) "stdout"));
    [| discriminate].
  destruct (can_open env (get_log_file_path settings (inst st) "stderr"));
    [| discriminate].
  destruct (db st !! id (inst st)) as [row |]; [| discriminate].
  destruct (exit_status env (provision_command settings (inst st)) =? 0);
    [destruct (exit_status env
                 (vtu_command settings (set_status RUNNING (inst st))) =? 0);
     [| discriminate] |];
    intros _; (split; [reflexivity |]);
    unfold persisted_status; cbn [snd db]; rewrite lookup_insert_eq;
    reflexivity.
Qed.

Lemma run_job_returns_only_failed_witness :
  let out := run_job Fixture.settings (Fixture.env_all 1)
               (Fixture.state_of Fixture.job) in
  status (inst (snd out)) = FAILED /\
  persisted_status (db (snd out)) Fixture.uid = Some FAILED.
Proof.
  apply (run_job_returns_only_failed Fixture.settings (Fixture.env_all 1)
           (Fixture.state_of Fixture.job)).
  vm_compute. reflexivity.
Defined.

(** X8.  What decides how [run_job] ends:
    - the I/O error, exactly when one of the two log files cannot be opened;
    - the database error, exactly when both open and the store has no row
      for the job;
    - the recursion error, exactly when both open, the row is there, the
      provisioning command exits with 0 and the conversion does not;
    - a normal return in the remaining cases: the provisioning command
      exits with a non-zero status, or the conversion exits with 0. *)
Theorem run_job_outcomes (settings : Settings) (env : Env) (st : State) :
  let j := inst st in
  let opened :=
    can_open env (get_log_file_path settings j "stdout")
    && can_open env (get_log_file_path settings j "stderr") in
  let provisioned := exit_status env (provision_command settings j) =? 0 in
  let converted :=
    exit_status env (vtu_command settings (set_status RUNNING j)) =? 0 in
  let r := fst (run_job settings env st) in
  (r = Raise IOError <-> opened = false) /\
  (r = Raise DatabaseError <-> opened = true /\ db st !! id j = None) /\
  (r = Raise RecursionError <->
   opened = true /\ is_Some (db st !! id j) /\
   provisioned = true /\ converted = false) /\
  (r = Ok tt <->
   opened = true /\ is_Some (db st !! id j) /\
   (provisioned = false \/ converted = true)).
Proof.
  cbv zeta. rewrite run_job_exec. cbv zeta.
  destruct (can_open env (get_log_file_path settings (inst st) "stdout"));
    [| cbn [andb fst]; repeat split; try discriminate; intros; intuition discriminate].
  destruct (can_open env (get_log_file_path settings (inst st) "stderr"));
    [| cbn [andb fst]; repeat split; try discriminate; intros; intuition discriminate].
  cbn [andb].
  destruct (db st !! id (inst st)) as [row |].
  2:{ cbn [fst]. repeat split; try discriminate;
        try (intros; intuition discriminate);
        intros (_ & [x Hx] & _); discriminate Hx. }
  destruct (exit_status env (provision_command settings (inst st)) =? 0);
    [destruct (exit_status env
                 (vtu_command settings (set_status RUNNING (inst st))) =? 0) |];
    cbn [fst]; repeat split; try discriminate; eauto;
    try (intros; intuition discriminate).
Qed.

Lemma run_job_outcomes_witness :
  let env := Fixture.env_failing
               (vtu_command Fixture.settings
                  (set_status RUNNING Fixture.job)) in
  fst (run_job Fixture.settings env (Fixture.state_of Fixture.job))
  = Raise RecursionError.
Proof.
  intros env.
  apply (proj2 (proj1 (proj2 (proj2
           (run_job_outcomes Fixture.settings env
              (Fixture.state_of Fixture.job)))))).
  split; [reflexivity |]. split; [exists Fixture.job; reflexivity |].
  split; vm_compute; reflexivity.
Defined.

(** X9.  When a log file cannot be opened [run_job] raises before anything
    is saved or launched, and the store is as it was.  If it is the first
    file ([stdout]) nothing has changed at all; if it is the second, the
    first has already been truncated. *)
Theorem run_job_unopenable_logs
  (settings : Settings) (env : Env) (st : State) :
  let j := inst st in
  let stdout := get_log_file_path settings j "stdout" in
  let stderr := get_log_file_path settings j "stderr" in
  let out := run_job settings env st in
  (can_open env stdout = false -> out = (Raise IOError, st)) /\
  (can_open env stdout = true -> can_open env stderr = false ->
   fst out = Raise IOError /\
   db (snd out) = db st /\ inst (snd out) = inst st /\
   fs (snd out) = <[stdout := ""]> (fs st) /\
   map fst (events_of st out) = [EOpen stdout "w"; EClose stdout]).
Proof.
  cbv zeta. split.
  - intros Ho. rewrite run_job_exec. cbv zeta. rewrite Ho. reflexivity.
  - intros Ho He. rewrite run_job_events. rewrite run_job_exec. cbv zeta.
    rewrite Ho, He. repeat split.
Qed.

Lemma run_job_unopenable_logs_witness :
  let j := Fixture.job in
  let stderr := get_log_file_path Fixture.settings j "stderr" in
  let env := mkEnv (fun _ => 0) (fun p => negb (String.eqb p stderr)) 1000 64 in
  let out := run_job Fixture.settings env (Fixture.state_of j) in
  fst out = Raise IOError /\
  fs (snd out) !! get_log_file_path Fixture.settings j "stdout" = Some "".
Proof.
  intros j stderr env out.
  destruct (proj2 (run_job_unopenable_logs Fixture.settings env
                     (Fixture.state_of j)))
    as (Hraise & _ & _ & Hfs & _); [reflexivity | reflexivity |].
  split; [exact Hraise |]. subst out. rewrite Hfs. apply lookup_insert_eq.
Defined.

(** X10.  When the store has no row for the job, [run_job] opens both log
    files (truncating them), fails to persist [RUNNING] and raises the
    database error: no command is launched and the store is unchanged, but
    the in-memory instance is left [RUNNING] and both files are closed. *)
Theorem run_job_without_row
  (settings : Settings) (env : Env) (st : State) :
  let j := inst st in
  let stdout := get_log_file_path settings j "stdout" in
  let stderr := get_log_file_path settings j "stderr" in
  let out := run_job settings env st in
  can_open env stdout = true -> can_open env stderr = true ->
  db st !! id j = None ->
  fst out = Raise DatabaseError /\
  db (snd out) = db st /\
  status (inst (snd out)) = RUNNING /\
  calls (events_of st out) = [] /\
  map fst (events_of st out)
  = [EOpen stdout "w"; EOpen stderr "w"; EClose stderr; EClose stdout].
Proof.
  cbv zeta. intros Ho He Hrow.
  rewrite run_job_events. rewrite run_job_exec. cbv zeta.
  rewrite Ho, He, Hrow. repeat split.
Qed.

Lemma run_job_without_row_witness :
  let st := mkState Fixture.job ∅ ∅ ∅ [] in
  let out := run_job Fixture.settings (Fixture.env_all 0) st in
  fst out = Raise DatabaseError /\ db (snd out) = ∅ /\
  status (inst (snd out)) = RUNNING.
Proof.
  intros st out.
  destruct (run_job_without_row Fixture.settings (Fixture.env_all 0) st)
    as (Hraise & Hdb & Hstatus & _); [reflexivity | reflexivity | reflexivity |].
  split; [exact Hraise |]. split; [exact Hdb | exact Hstatus].
Defined.

(** X11.  When the provisioning command exits with a non-zero status,
    [run_job] returns normally with the job [FAILED] in memory and in the
    store; it is the only command launched, and the log files are closed
    after the failure has been saved. *)
Theorem run_job_provision_failure
  (settings : Settings) (env : Env) (st : State) (row : Job) :
  let j := inst st in
  let stdout := get_log_file_path settings j "stdout" in
  let stderr := get_log_file_path settings j "stderr" in
  let out := run_job settings env st in
  can_open env stdout = true -> can_open env stderr = true ->
  db st !! id j = Some row ->
  exit_status env (provision_command settings j) <> 0 ->
  fst out = Ok tt /\
  status (inst (snd out)) = FAILED /\
  db (snd out) = <[id j := set_status FAILED row]> (db st) /\
  calls (events_of st out) = [provision_command settings j] /\
  map fst (events_of st out)
  = [EOpen stdout "w"; EOpen stderr "w";
     ESave (Some [Fstatus]) (set_status RUNNING row);
     ECall (provision_command settings j) (Some stdout) (Some stderr);
     ESave (Some [Fstatus]) (set_status FAILED row);
     EClose stderr; EClose stdout].
Proof.
  cbv zeta. intros Ho He Hrow Hp. apply Z.eqb_neq in Hp.
  rewrite run_job_events. rewrite run_job_exec. cbv zeta.
  rewrite Ho, He, Hrow, Hp. cbn [fst snd inst db].
  split; [reflexivity |]. split; [reflexivity |].
  split; [apply insert_insert_eq |]. split; reflexivity.
Qed.

Lemma run_job_provision_failure_witness :
  let out := run_job Fixture.settings (Fixture.env_all 1)
               (Fixture.state_of Fixture.job) in
  fst out = Ok tt /\
  calls (events_of (Fixture.state_of Fixture.job) out)
  = [provision_command Fixture.settings Fixture.job].
Proof.
  intros out.
  destruct (run_job_provision_failure Fixture.settings (Fixture.env_all 1)
              (Fixture.state_of Fixture.job) Fixture.job)
    as (Hok & _ & _ & Hcalls & _);
    [reflexivity | reflexivity | reflexivity | discriminate |].
  split; [exact Hok | exact Hcalls].
Defined.

(** X12.  Every status that [run_setup] or [run_job] saves is [ADDED],
    [RUNNING] or [FAILED]: a declared choice of the model and of migration
    0012, and never [QUEUED], [PREPROCESSING] or [DONE]. *)
Theorem tasks_save_declared_statuses
  (settings : Settings) (env : Env) (st : State)
  (uf : option (list field)) (row : Job) (snap : gmap N Job) :
  In (ESave uf row, snap) (events_of st (run_setup env st)) \/
  In (ESave uf row, snap) (events_of st (run_job settings env st)) ->
  (status row = ADDED \/ status row = RUNNING \/ status row = FAILED) /\
  In (status row) (map fst STATUS_CHOICES) /\
  In (status row) (map fst Migration0012.status_choices) /\
  status row <> QUEUED /\ status row <> PREPROCESSING /\ status row <> DONE.
Proof.
  intros Hin.
  assert (Hst : status row = ADDED \/ status row = RUNNING
                \/ status row = FAILED).
  { destruct Hin as [Hin | Hin].
    - rewrite run_setup_exec in Hin. cbv zeta in Hin.
      erewrite events_of_app in Hin by reflexivity.
      in_cases Hin. inversion Hin; subst.
      destruct (exit_status env (setup_command (inst st)) =? 0);
        destruct (db st !! id (inst st)); cbn; tauto.
    - rewrite run_job_events in Hin. cbv zeta in Hin.
      destruct (can_open env (get_log_file_path settings (inst st) "stdout"));
        [| destruct Hin].
      destruct (can_open env (get_log_file_path settings (inst st) "stderr"));
        [| in_cases Hin].
      destruct (db st !! id (inst st)) as [row0 |]; [| in_cases Hin].
      destruct (exit_status env (provision_command settings (inst st)) =? 0);
        [destruct (exit_status env
                     (vtu_command settings
                        (set_status RUNNING (inst st))) =? 0) |];
        in_cases Hin; inversion Hin; subst; cbn; tauto. }
  split; [exact Hst |].
  destruct Hst as [-> | [-> | ->]]; cbn;
    repeat split; try tauto; discriminate.
Qed.

Lemma tasks_save_declared_statuses_witness :
  let st := Fixture.state_of Fixture.job in
  let row := set_updated 1000 (set_status FAILED Fixture.job) in
  status row <> DONE.
Proof.
  intros st row.
  apply (tasks_save_declared_statuses Fixture.settings (Fixture.env_all 1) st
           None row (<[Fixture.uid := row]> (db st))).
  left. rewrite run_setup_exec. cbv zeta.
  erewrite events_of_app by reflexivity.
  right. left. reflexivity.
Defined.

(** ** Setup task, continued *)

(** Replacing a text that does not occur changes nothing. *)
Lemma replace_absent (s old new : string) :
  old <> "" -> Py.occurs old s = false -> Py.replace s old new = s.
Proof.
  intros Hold. unfold Py.replace.
  destruct old as [| a old]; [contradiction |].
  induction s as [| c s IH]; intros Hocc; [reflexivity |].
  cbn [Py.occurs] in Hocc. apply orb_false_elim in Hocc as [Hhead Htail].
  cbn [Py.replace_from]. rewrite Hhead, (IH Htail). reflexivity.
Qed.

(** X13.  When the stl name does not contain ".stl" at all (no upload, or an
    extension written otherwise, such as ".STL"), a successful [run_setup]
    assigns the stl name itself as configuration file and as input file. *)
Theorem run_setup_without_stl_extension (env : Env) (st : State) :
  let j := inst st in
  let j' := inst (snd (run_setup env st)) in
  Py.occurs ".stl" (stl_file j) = false ->
  exit_status env (setup_command j) = 0 ->
  configuration_file j' = stl_file j /\ input_file j' = stl_file j.
Proof.
  cbv zeta. intros Hocc Hexit.
  rewrite run_setup_exec. cbv zeta. cbn [snd inst]. rewrite Hexit.
  cbn [Z.eqb].
  destruct (db st !! id (inst st));
    cbn [configuration_file input_file set_created set_updated set_status
         set_input_file set_configuration_file];
    rewrite !replace_absent by (discriminate || exact Hocc);
    split; reflexivity.
Qed.

Lemma run_setup_without_stl_extension_witness :
  let j := set_stl_file "/srv/jobs/ff/inputs/MODEL.STL" Fixture.job in
  let j' := inst (snd (run_setup (Fixture.env_all 0) (Fixture.state_of j))) in
  configuration_file j' = "/srv/jobs/ff/inputs/MODEL.STL" /\
  input_file j' = "/srv/jobs/ff/inputs/MODEL.STL".
Proof.
  intros j j'.
  apply (run_setup_without_stl_extension (Fixture.env_all 0)
           (Fixture.state_of j)); reflexivity.
Defined.

Lemma run_setup_derives_paths_witness :
  let st := Fixture.state_of Fixture.job in
  let j' := inst (snd (run_setup (Fixture.env_all 0) st)) in
  configuration_file j'
  = "/srv/jobs/000000000000000000000000000000ff/inputs/foo.xml" /\
  input_file j'
  = "/srv/jobs/000000000000000000000000000000ff/inputs/foo.gmy".
Proof.
  intros st j'.
  apply (run_setup_derives_paths (Fixture.env_all 0) st
           "/srv/jobs/000000000000000000000000000000ff/inputs/foo");
    reflexivity.
Defined.

(** ** Pages *)

(** X14.  Where the job is sent next.  After [run_setup] the next step is
    the first configuration page exactly when the setup tool exited with 0,
    and the details page otherwise; after a normal return of [run_job] it is
    the details page. *)
Theorem next_step_after_tasks
  (settings : Settings) (env : Env) (reverse : string -> string -> string)
  (st : State) :
  let pk := UUID.str (id (inst st)) in
  let after_setup := inst (snd (run_setup env st)) in
  let ran := run_job settings env st in
  (exit_status env (setup_command (inst st)) = 0 ->
   get_next_step_url reverse after_setup = reverse "jobs:configure1" pk) /\
  (exit_status env (setup_command (inst st)) <> 0 ->
   get_next_step_url reverse after_setup = reverse "jobs:details" pk) /\
  (fst ran = Ok tt ->
   get_next_step_url reverse (inst (snd ran)) = reverse "jobs:details" pk).
Proof.
  cbv zeta. split; [| split].
  - intros Hexit. rewrite run_setup_exec. cbv zeta. cbn [snd inst].
    rewrite Hexit. cbn [Z.eqb].
    destruct (db st !! id (inst st)); reflexivity.
  - intros Hexit. apply Z.eqb_neq in Hexit.
    rewrite run_setup_exec. cbv zeta. cbn [snd inst]. rewrite Hexit.
    destruct (db st !! id (inst st)); reflexivity.
  - rewrite run_job_exec. cbv zeta.
    destruct (can_open env (get_log_file_path settings (inst st) "stdout"));
      [| discriminate].
    destruct (can_open env (get_log_file_path settings (inst st) "stderr"));
      [| discriminate].
    destruct (db st !! id (inst st)) as [row |]; [| discriminate].
    destruct (exit_status env (provision_command settings (inst st)) =? 0);
      [destruct (exit_status env
                   (vtu_command settings (set_status RUNNING (inst st))) =? 0);
       [| discriminate] |];
      intros _; reflexivity.
Qed.

Lemma next_step_after_tasks_witness :
  let reverse (name pk : string) := "/" +:+ name +:+ "/" +:+ pk in
  let st := Fixture.state_of Fixture.job in
  get_next_step_url reverse (inst (snd (run_setup (Fixture.env_all 0) st)))
  = "/jobs:configure1/00000000-0000-0000-0000-0000000000ff" /\
  get_next_step_url reverse (inst (snd (run_setup (Fixture.env_all 1) st)))
  = "/jobs:details/00000000-0000-0000-0000-0000000000ff".
Proof.
  intros reverse st. split.
  - apply (proj1 (next_step_after_tasks Fixture.settings (Fixture.env_all 0)
                    reverse st)). reflexivity.
  - apply (proj1 (proj2 (next_step_after_tasks Fixture.settings
                           (Fixture.env_all 1) reverse st))). discriminate.
Defined.

Lemma split_head_prefix (sep : ascii) (s : string) :
  String.prefix (split_head sep s) s = true.
Proof.
  induction s as [| c s IH]; [reflexivity |].
  cbn [split_head]. destruct (Ascii.eqb c sep); [reflexivity |].
  rewrite prefix_cons. destruct (ascii_dec c c); [exact IH | contradiction].
Qed.

Lemma split_head_free (sep : ascii) (s : string) :
  str_all (fun c => negb (Ascii.eqb c sep)) (split_head sep s) = true.
Proof.
  induction s as [| c s IH]; [reflexivity |].
  cbn [split_head]. destruct (Ascii.eqb c sep) eqn:Hc; [reflexivity |].
  cbn [str_all]. rewrite Hc, IH. reflexivity.
Qed.

(** X15.  The registry page of a job's container image.
    - For an image of the choice table it is
      [http://hub.docker.com/r/seiryuz/hemelb-core], the same for both.
    - For any other value the call raises [AttributeError].
    - Whenever an address is returned, it is the fixed base followed by the
      start of the image label, cut before its first colon: the tag never
      gets into the address. *)
Theorem container_image_url_drops_tag (j : Job) :
  (In (container_image j) (map fst CONTAINER_CHOICES) ->
   get_container_image_url j
   = Url "http://hub.docker.com/r/seiryuz/hemelb-core") /\
  (~ In (container_image j) (map fst CONTAINER_CHOICES) ->
   get_container_image_url j = AttributeError) /\
  (forall url : string,
      get_container_image_url j = Url url ->
      exists repo : string,
        url = "http://hub.docker.com/r/" +:+ repo /\
        String.prefix repo (get_container_image_display j) = true /\
        str_all (fun c => negb (Ascii.eqb c ":")) repo = true).
Proof.
  unfold get_container_image_url, get_container_image_display.
  cbn [choice_label CONTAINER_CHOICES map fst In].
  destruct (Z.eqb_spec (container_image j) 2) as [E2 | N2].
  - rewrite E2. cbn [Z.eqb Pos.eqb]. split; [reflexivity |]. split.
    + intros Hout. exfalso. apply Hout. right. left. reflexivity.
    + intros url Hurl. injection Hurl as <-.
      exists (split_head ":" "seiryuz/hemelb-core:0.0.3").
      split; [reflexivity |].
      split; [apply split_head_prefix | apply split_head_free].
  - destruct (Z.eqb_spec (container_image j) 1) as [E1 | N1].
    + split; [reflexivity |]. split.
      * intros Hout. exfalso. apply Hout. left. symmetry. exact E1.
      * intros url Hurl. injection Hurl as <-.
        exists (split_head ":" "seiryuz/hemelb-core:0.0.2").
        split; [reflexivity |].
        split; [apply split_head_prefix | apply split_head_free].
    + split; [| split].
      * intros [E | [E | []]]; congruence.
      * reflexivity.
      * intros url Hurl. discriminate Hurl.
Qed.

Lemma container_image_url_drops_tag_witness :
  get_container_image_url (set_container_image 2 Fixture.job)
  = Url "http://hub.docker.com/r/seiryuz/hemelb-core" /\
  get_container_image_url (set_container_image 3 Fixture.job)
  = AttributeError.
Proof.
  split.
  - apply (proj1 (container_image_url_drops_tag
                    (set_container_image 2 Fixture.job))).
    right. left. reflexivity.
  - apply (proj1 (proj2 (container_image_url_drops_tag
                           (set_container_image 3 Fixture.job)))).
    cbn. intros [E | [E | []]]; discriminate E.
Defined.

(** ** Packaging *)

(** X16.  [package_output] never gets to the archive: building its command
    raises the recursion error, so no command is launched, the output file
    is not recorded and nothing is saved; the state is as it was. *)
Theorem package_output_always_raises
  (settings : Settings) (env : Env) (st : State) :
  package_output settings env st = (Raise RecursionError, st).
Proof.
  unfold package_output, bind, get_self, lift, package_command.
  rewrite extracted_path_exhausts_depth. reflexivity.
Qed.

(** ** Directories *)

Lemma touch_same (p : string) (d : Disk) :
  files (touch p d) !! p = Some (default "" (files d !! p)).
Proof.
  unfold touch. destruct (files d !! p) as [c |] eqn:Hp; cbn [files default].
  - exact Hp.
  - apply lookup_insert_eq.
Qed.

Lemma touch_other (p q : string) (d : Disk) :
  p <> q -> files (touch p d) !! q = files d !! q.
Proof.
  intros Hne. unfold touch. destruct (files d !! p); cbn [files];
    [reflexivity | apply lookup_insert_ne; exact Hne].
Qed.

Lemma touch_dirs (p : string) (d : Disk) : dirs (touch p d) = dirs d.
Proof. unfold touch. destruct (files d !! p); reflexivity. Qed.

Lemma log_files_apart (settings : Settings) (j : Job) (s t : string) :
  Py.startswith s "/" = false -> Py.startswith t "/" = false -> s <> t ->
  get_log_file_path settings j s <> get_log_file_path settings j t.
Proof.
  intros Hs Ht Hne Heq. rewrite !log_file_shape in Heq by assumption.
  apply app_length_inj in Heq as [_ Heq]; [| reflexivity].
  apply app_length_inj in Heq as [_ Heq]; [| reflexivity].
  exact (Hne Heq).
Qed.

Lemma inputs_is_not_logs (settings : Settings) (j : Job) :
  get_log_directory_path settings j <> get_input_directory_path settings j.
Proof.
  rewrite log_directory_shape, input_directory_shape. intros Heq.
  apply app_length_inj in Heq as [_ Heq]; [| reflexivity].
  discriminate Heq.
Qed.

(** X17.  [prepare_directories] works once.
    - If the input directory is already there it raises at once and changes
      nothing.
    - If only the log directory is there it raises after having made the
      input directory, and makes no log file.
    - Otherwise it makes both directories and the three log files
      [stdout], [stderr] and [hemelb], empty unless a file of that name
      was there, whose content is kept; a second call then raises and
      changes nothing. *)
Theorem prepare_directories_works_once
  (settings : Settings) (j : Job) (d : Disk) :
  let inputs := get_input_directory_path settings j in
  let logs := get_log_directory_path settings j in
  let out := prepare_directories settings j d in
  (inputs ∈ dirs d -> out = (Some EEXIST, d)) /\
  (inputs ∉ dirs d -> logs ∈ dirs d ->
   out = (Some EEXIST, mkDisk ({[inputs]} ∪ dirs d) (files d))) /\
  (inputs ∉ dirs d -> logs ∉ dirs d ->
   fst out = None /\
   dirs (snd out) = {[logs]} ∪ ({[inputs]} ∪ dirs d) /\
   (forall log_type,
       In log_type ["stdout"; "stderr"; "hemelb"] ->
       files (snd out) !! get_log_file_path settings j log_type
       = Some (default "" (files d !! get_log_file_path settings j log_type)))
   /\
   prepare_directories settings j (snd out) = (Some EEXIST, snd out)).
Proof.
  intros inputs logs out. subst out. unfold prepare_directories, makedirs.
  fold inputs logs. cbn [dirs files].
  pose proof (inputs_is_not_logs settings j) as Hapart. fold inputs logs in Hapart.
  split; [| split].
  - intros Hin. rewrite decide_True by exact Hin. reflexivity.
  - intros Hin Hlog. rewrite decide_False by exact Hin. cbn [dirs files].
    rewrite decide_True by exact Hlog || set_solver. reflexivity.
  - intros Hin Hlog. rewrite decide_False by exact Hin. cbn [dirs files].
    rewrite (decide_False (P := logs ∈ {[inputs]} ∪ dirs d)).
    2:{ intros [Hx | Hx]%elem_of_union; [| exact (Hlog Hx)].
        apply elem_of_singleton in Hx. exact (Hapart Hx). }
    cbn [fst snd].
    split; [reflexivity |].
    split; [rewrite !touch_dirs; reflexivity |].
    split.
    + intros log_type Ht.
      assert (Hso : get_log_file_path settings j "stdout"
                    <> get_log_file_path settings j "stderr")
        by (apply log_files_apart; [reflexivity | reflexivity | discriminate]).
      assert (Hsh : get_log_file_path settings j "stdout"
                    <> get_log_file_path settings j "hemelb")
        by (apply log_files_apart; [reflexivity | reflexivity | discriminate]).
      assert (Heh : get_log_file_path settings j "stderr"
                    <> get_log_file_path settings j "hemelb")
        by (apply log_files_apart; [reflexivity | reflexivity | discriminate]).
      cbn [In] in Ht. destruct Ht as [<- | [<- | [<- | []]]].
      * rewrite touch_other, touch_other, touch_same by congruence.
        reflexivity.
      * rewrite touch_other, touch_same, touch_other by congruence.
        reflexivity.
      * rewrite touch_same, touch_other, touch_other by congruence.
        reflexivity.
    + rewrite !touch_dirs. cbn [dirs].
      rewrite decide_True; [reflexivity |].
      apply elem_of_union_r, elem_of_union_l, elem_of_singleton. reflexivity.
Qed.

Lemma prepare_directories_works_once_witness :
  let d := mkDisk ∅ ∅ in
  let out := prepare_directories Fixture.settings Fixture.job d in
  fst out = None /\
  files (snd out) !! get_log_file_path Fixture.settings Fixture.job "hemelb"
  = Some "" /\
  fst (prepare_directories Fixture.settings Fixture.job (snd out))
  = Some EEXIST.
Proof.
  intros d out.
  destruct (proj2 (proj2 (prepare_directories_works_once Fixture.settings
                            Fixture.job d)))
    as (Hok & _ & Hfiles & Hagain);
    [apply not_elem_of_empty | apply not_elem_of_empty |].
  split; [exact Hok |]. split.
  - exact (Hfiles "hemelb" (or_intror (or_intror (or_introl eq_refl)))).
  - exact (f_equal fst Hagain).
Defined.

(** X18.  After [prepare_directories] has succeeded for a job none of whose
    three log files existed, [get_output] on a cache miss returns the empty
    string for [stdout], [stderr] and [hemelb]: the missing-file error
    cannot occur for them. *)
Theorem get_output_after_prepare
  (settings : Settings) (env : Env) (st : State) (d : Disk)
  (log_type : string) :
  let j := inst st in
  let path := get_log_file_path settings j log_type in
  let prepared := prepare_directories settings j d in
  In log_type ["stdout"; "stderr"; "hemelb"] ->
  get_input_directory_path settings j ∉ dirs d ->
  get_log_directory_path settings j ∉ dirs d ->
  files d !! path = None ->
  cache_lookup env (cache st)
    (UUID.hex (id j) +:+ ":log:" +:+ log_type) = None ->
  fst prepared = None /\
  fst (get_output settings env log_type (with_fs (files (snd prepared)) st))
  = Ok "".
Proof.
  cbv zeta. intros Ht Hin Hlog Hfile Hmiss.
  assert (Hprep :
            fst (prepare_directories settings (inst st) d) = None /\
            files (snd (prepare_directories settings (inst st) d))
              !! get_log_file_path settings (inst st) log_type = Some "").
  { unfold prepare_directories, makedirs.
    rewrite decide_False by exact Hin. cbn [dirs files].
    pose proof (inputs_is_not_logs settings (inst st)) as Hapart.
    rewrite decide_False.
    2:{ intros [Hx | Hx]%elem_of_union; [| exact (Hlog Hx)].
        apply elem_of_singleton in Hx. exact (Hapart Hx). }
    cbn [fst snd].
    split; [reflexivity |].
    assert (Hso : get_log_file_path settings (inst st) "stdout"
                  <> get_log_file_path settings (inst st) "stderr")
      by (apply log_files_apart; [reflexivity | reflexivity | discriminate]).
    assert (Hsh : get_log_file_path settings (inst st) "stdout"
                  <> get_log_file_path settings (inst st) "hemelb")
      by (apply log_files_apart; [reflexivity | reflexivity | discriminate]).
    assert (Heh : get_log_file_path settings (inst st) "stderr"
                  <> get_log_file_path settings (inst st) "hemelb")
      by (apply log_files_apart; [reflexivity | reflexivity | discriminate]).
    cbn [In] in Ht. destruct Ht as [<- | [<- | [<- | []]]].
    - rewrite touch_other, touch_other, touch_same by congruence.
      cbn [files]. rewrite Hfile. reflexivity.
    - rewrite touch_other, touch_same, touch_other by congruence.
      cbn [files]. rewrite Hfile. reflexivity.
    - rewrite touch_same, touch_other, touch_other by congruence.
      cbn [files]. rewrite Hfile. reflexivity. }
  destruct Hprep as [Hok Hcontent]. split; [exact Hok |].
  rewrite get_output_exec. cbv zeta. unfold with_fs.
  cbn [inst db cache fs log]. rewrite Hmiss, Hcontent. reflexivity.
Qed.

Lemma get_output_after_prepare_witness :
  let st := Fixture.state_of Fixture.job in
  let prepared := prepare_directories Fixture.settings Fixture.job
                    (mkDisk ∅ ∅) in
  fst (get_output Fixture.settings (Fixture.env_all 0) "stderr"
         (with_fs (files (snd prepared)) st)) = Ok "".
Proof.
  intros st prepared.
  apply (get_output_after_prepare Fixture.settings (Fixture.env_all 0) st
           (mkDisk ∅ ∅) "stderr");
    [right; left; reflexivity | apply not_elem_of_empty
    | apply not_elem_of_empty | reflexivity | reflexivity].
Defined.

(** ** Frames and composition *)

(** X19.  Neither task touches the row of another job: whatever happens,
    the store holds for every other id what it held before. *)
Theorem tasks_leave_other_rows
  (settings : Settings) (env : Env) (st : State) (other : N) :
  other <> id (inst st) ->
  db (snd (run_setup env st)) !! other = db st !! other /\
  db (snd (run_job settings env st)) !! other = db st !! other.
Proof.
  intros Hne. split.
  - rewrite run_setup_exec. cbv zeta. cbn [snd db].
    apply lookup_insert_ne. congruence.
  - rewrite run_job_exec. cbv zeta.
    destruct (can_open env (get_log_file_path settings (inst st) "stdout"));
      [| reflexivity].
    destruct (can_open env (get_log_file_path settings (inst st) "stderr"));
      [| reflexivity].
    destruct (db st !! id (inst st)) as [row |]; [| reflexivity].
    destruct (exit_status env (provision_command settings (inst st)) =? 0);
      [destruct (exit_status env
                   (vtu_command settings (set_status RUNNING (inst st))) =? 0) |];
      cbn [snd db]; rewrite ?lookup_insert_ne by congruence; reflexivity.
Qed.

Lemma tasks_leave_other_rows_witness :
  let other := mkJob 7%N "" "" "" "" "" 0 0 1 2 1 DONE in
  let st := with_db (<[7%N := other]> (db (Fixture.state_of Fixture.job)))
              (Fixture.state_of Fixture.job) in
  db (snd (run_job Fixture.settings (Fixture.env_all 1) st)) !! 7%N
  = Some other.
Proof.
  intros other st.
  rewrite (proj2 (tasks_leave_other_rows Fixture.settings (Fixture.env_all 1)
                    st 7%N ltac:(discriminate))).
  apply lookup_insert_eq.
Defined.

(** X20.  [run_setup] is idempotent: run a second time, with the clock and
    the tool's exit status unchanged, it leaves the instance and the store
    as the first run left them. *)
Theorem run_setup_idempotent (env : Env) (st : State) :
  let once := snd (run_setup env st) in
  let twice := snd (run_setup env once) in
  inst twice = inst once /\ db twice = db once.
Proof.
  cbv zeta. rewrite (run_setup_exec env st). cbv zeta. cbn [snd].
  destruct (db st !! id (inst st)) eqn:Hrow;
    destruct (exit_status env (setup_command (inst st)) =? 0) eqn:Hexit;
    rewrite run_setup_exec; cbv zeta;
    cbn [snd inst db id stl_file profile_file set_created set_updated
         set_status set_input_file set_configuration_file];
    rewrite lookup_insert_eq;
    change (setup_command _) with (setup_command (inst st));
    rewrite Hexit; (split; [reflexivity |]);
    rewrite insert_insert_eq; reflexivity.
Qed.

(** X21.  [get_output] only ever touches the cache: the instance, the store
    and the files are as before, and when it raises the cache is too. *)
Theorem get_output_reads_only
  (settings : Settings) (env : Env) (log_type : string) (st : State) :
  let out := get_output settings env log_type st in
  inst (snd out) = inst st /\ db (snd out) = db st /\ fs (snd out) = fs st /\
  (forall e, fst out = Raise e -> e = IOError /\ cache (snd out) = cache st).
Proof.
  cbv zeta. rewrite get_output_exec. cbv zeta.
  destruct (cache_lookup env (cache st)
              (UUID.hex (id (inst st)) +:+ ":log:" +:+ log_type)).
  - repeat split; discriminate.
  - destruct (fs st !! get_log_file_path settings (inst st) log_type).
    + repeat split; discriminate.
    + split; [reflexivity |]. split; [reflexivity |]. split; [reflexivity |].
      intros e He. inversion He. split; reflexivity.
Qed.

(** ** The provisioning command line *)

Lemma prefix_app_same (l x y : string) :
  String.prefix (l +:+ x) (l +:+ y) = String.prefix x y.
Proof.
  induction l as [| c l IH]; [reflexivity |].
  rewrite !append_cons, prefix_cons.
  destruct (ascii_dec c c); [exact IH | contradiction].
Qed.

Lemma occurs_here (p s : string) :
  String.prefix p s = true -> Py.occurs p s = true.
Proof. intros H. destruct s; cbn [Py.occurs]; rewrite H; reflexivity. Qed.

Lemma occurs_cons (p : string) (c : ascii) (s : string) :
  Py.occurs p s = true -> Py.occurs p (String c s) = true.
Proof. intros H. cbn [Py.occurs]. rewrite H. apply orb_true_r. Qed.

Lemma occurs_app_r (p a s : string) :
  Py.occurs p s = true -> Py.occurs p (a +:+ s) = true.
Proof.
  intros H. induction a as [| c a IH]; [exact H |].
  rewrite append_cons. apply occurs_cons, IH.
Qed.

Lemma get_instance_id_outside (j : Job) :
  ~ In (instance_type j) (map fst INSTANCE_CHOICES) ->
  get_instance_id j = None.
Proof.
  intros Hout. unfold get_instance_id.
  destruct (Z.eqb_spec (instance_type j) 2) as [E | _];
    [exfalso; apply Hout; rewrite E; cbn; tauto |].
  destruct (Z.eqb_spec (instance_type j) 4) as [E | _];
    [exfalso; apply Hout; rewrite E; cbn; tauto |].
  destruct (Z.eqb_spec (instance_type j) 8) as [E | _];
    [exfalso; apply Hout; rewrite E; cbn; tauto |].
  destruct (Z.eqb_spec (instance_type j) 16) as [E | _];
    [exfalso; apply Hout; rewrite E; cbn; tauto |].
  reflexivity.
Qed.

(** X22.  For an instance type outside the choice table the provisioning
    command is still built, with the text [None] where the machine type
    belongs. *)
Theorem provision_command_instance_none (settings : Settings) (j : Job) :
  ~ In (instance_type j) (map fst INSTANCE_CHOICES) ->
  Py.occurs "worker_instance_type=None log_file="
    (provision_command settings j) = true.
Proof.
  intros Hout. unfold provision_command.
  rewrite (get_instance_id_outside j Hout). cbn [Py.format_opt].
  do 23 apply occurs_app_r.
  set (rest := get_log_file_path settings j "hemelb" +:+ _).
  change (Py.occurs "worker_instance_type=None log_file="
            ("        " +:+ "worker_instance_type=None log_file=" +:+ rest)
          = true).
  apply occurs_app_r, occurs_here.
  rewrite <- (append_empty_r "worker_instance_type=None log_file=") at 1.
  rewrite prefix_app_same. apply prefix_empty.
Qed.

Lemma provision_command_instance_none_witness :
  Py.occurs "worker_instance_type=None log_file="
    (provision_command Fixture.settings (set_instance_type 3 Fixture.job))
  = true.
Proof.
  apply provision_command_instance_none.
  cbn. intros [E | [E | [E | [E | []]]]]; discriminate E.
Defined.

(** X23.  The provisioning command line carries both AWS credentials of the
    settings in clear, as shell exports. *)
Theorem provision_command_exports_credentials
  (settings : Settings) (j : Job) :
  Py.occurs ("export AWS_SECRET_ACCESS_KEY="
             +:+ AWS_SECRET_ACCESS_KEY settings +:+ "; ")
    (provision_command settings j) = true /\
  Py.occurs ("export AWS_ACCESS_KEY_ID="
             +:+ AWS_ACCESS_KEY_ID settings +:+ "; ")
    (provision_command settings j) = true.
Proof.
  unfold provision_command. split.
  - apply occurs_app_r.
    set (rest := "        export AWS_ACCESS_KEY_ID=" +:+ _).
    change (Py.occurs
              ("export AWS_SECRET_ACCESS_KEY="
               +:+ AWS_SECRET_ACCESS_KEY settings +:+ "; ")
              ("        " +:+ "export AWS_SECRET_ACCESS_KEY="
               +:+ AWS_SECRET_ACCESS_KEY settings +:+ "; " +:+ rest) = true).
    apply occurs_app_r, occurs_here.
    rewrite !prefix_app_same. reflexivity.
  - do 4 apply occurs_app_r.
    set (rest := "        /var/www/hemeweb/virtualenv/bin/ansible-playbook "
                 +:+ _).
    change (Py.occurs
              ("export AWS_ACCESS_KEY_ID="
               +:+ AWS_ACCESS_KEY_ID settings +:+ "; ")
              ("        " +:+ "export AWS_ACCESS_KEY_ID="
               +:+ AWS_ACCESS_KEY_ID settings +:+ "; " +:+ rest) = true).
    apply occurs_app_r, occurs_here.
    rewrite !prefix_app_same. reflexivity.
Qed.

Lemma get_output_reads_only_witness :
  let out := get_output Fixture.settings (Fixture.env_all 0) "stdout"
               (Fixture.state_of Fixture.job) in
  fst out = Raise IOError /\ cache (snd out) = ∅.
Proof.
  intros out.
  assert (Hraise : fst out = Raise IOError) by reflexivity.
  split; [exact Hraise |].
  exact (proj2 (proj2 (proj2 (proj2
           (get_output_reads_only Fixture.settings (Fixture.env_all 0)
              "stdout" (Fixture.state_of Fixture.job)))) IOError Hraise)).
Defined.
